(** * uC/OS-III thread local storage, IAR port (TLS/IAR/os_tls.c)

    A shallow embedding of the TLS slot allocator, the per-task TLS value
    store, the lock pool and the DLIB per-thread address resolver, together
    with the properties stated about them.

    Conventions of the embedding:
    - unsigned machine integers ([CPU_DATA], [OS_TLS_ID], [OS_OPT],
      [uintptr_t], pointers stored in a TLS register) are values of [N];
      wrap-around is written out with [mod];
    - a pointer to an [OS_TLS_LOCK] is the index of the entry in
      [OS_TLS_LockPoolTbl], the null pointer is [None]; a pointer to an
      [OS_TCB] is a key of the TCB store, the null pointer is [None];
    - a function whose C body dereferences a pointer or indexes an array
      returns an [option]; [None] stands for undefined behaviour (a pointer
      that designates no object, an index outside the array); for
      [OS_TLS_Init], whose stores all go to indices of the declared pool
      array, [None] stands for a loop that does not end;
    - calls into the kernel and into the DLIB runtime are recorded, in
      order, in the [calls] component of the state; the error code a kernel
      service reports is an argument of the function that calls it;
    - [CPU_CRITICAL_ENTER]/[CPU_CRITICAL_EXIT] bracket code that this
      sequential model runs atomically anyway;
    - the file is built without [OS_SAFETY_CRITICAL]: [p_err] is never
      null. *)

From stdpp Require Import base numbers option list gmap.

Local Open Scope N_scope.

(** ** Types of os.h used by os_tls.c *)

(** The error codes this file assigns or compares with; every other code
    of the kernel's [OS_ERR] enumeration is [OS_ERR_OTHER]. *)
Inductive OS_ERR : Type :=
  | OS_ERR_NONE
  | OS_ERR_OS_NOT_RUNNING
  | OS_ERR_TLS_ID_INVALID
  | OS_ERR_TLS_NO_MORE_AVAIL
  | OS_ERR_TLS_NOT_EN
  | OS_ERR_OTHER (code : N).

Inductive OS_STATE : Type :=
  | OS_STATE_OS_STOPPED
  | OS_STATE_OS_RUNNING.

#[global] Instance OS_ERR_eq_dec : EqDecision OS_ERR.
Proof. solve_decision. Defined.

#[global] Instance OS_STATE_eq_dec : EqDecision OS_STATE.
Proof. solve_decision. Defined.

Definition OS_TLS_ID : Type := N.
Definition OS_TLS : Type := N.
Definition OS_OPT : Type := N.

(** The two fields of [struct os_tcb] that os_tls.c reads and writes. *)
Record OS_TCB : Type := mkTCB {
  Opt : OS_OPT;
  TLS_Tbl : list OS_TLS
}.

(** [struct os_tls_lock]: the [Mutex] field belongs to the kernel (only its
    address is ever taken here), [NextPtr] is the link of the free list. *)
Record OS_TLS_LOCK : Type := mkLock {
  NextPtr : option nat
}.

(** Services called by os_tls.c, with the arguments that identify the
    object they act on. *)
Inductive ext_call : Type :=
  | OSMutexCreate (p_mutex : nat)
  | OSMutexDel (p_mutex : nat)
  | OSMutexPend (p_mutex : nat)
  | OSMutexPost (p_mutex : nat)
  | iar_dlib_perthread_allocate
  | iar_dlib_perthread_initialize (p_tls : OS_TLS)
  | iar_dlib_perthread_destroy
  | iar_dlib_perthread_deallocate (p_tls : OS_TLS).

(** The file's static variables, the kernel globals it reads, the TCB
    store, and the record of outgoing calls (most recent first). *)
Record OS : Type := mkOS {
  OS_TLS_NextAvailID : N;
  OS_TLS_LibID : N;
  OS_TLS_LockPoolTbl : list OS_TLS_LOCK;
  OS_TLS_LockPoolListPtr : option nat;
  OSRunning : OS_STATE;
  OSTCBCurPtr : option nat;
  OSTCBHighRdyPtr : option nat;
  TCBs : gmap nat OS_TCB;
  calls : list ext_call
}.

Definition set_NextAvailID (v : N) (s : OS) : OS :=
  mkOS v (OS_TLS_LibID s) (OS_TLS_LockPoolTbl s) (OS_TLS_LockPoolListPtr s)
       (OSRunning s) (OSTCBCurPtr s) (OSTCBHighRdyPtr s) (TCBs s) (calls s).

Definition set_LibID (v : N) (s : OS) : OS :=
  mkOS (OS_TLS_NextAvailID s) v (OS_TLS_LockPoolTbl s) (OS_TLS_LockPoolListPtr s)
       (OSRunning s) (OSTCBCurPtr s) (OSTCBHighRdyPtr s) (TCBs s) (calls s).

Definition set_LockPoolTbl (t : list OS_TLS_LOCK) (s : OS) : OS :=
  mkOS (OS_TLS_NextAvailID s) (OS_TLS_LibID s) t (OS_TLS_LockPoolListPtr s)
       (OSRunning s) (OSTCBCurPtr s) (OSTCBHighRdyPtr s) (TCBs s) (calls s).

Definition set_LockPoolListPtr (h : option nat) (s : OS) : OS :=
  mkOS (OS_TLS_NextAvailID s) (OS_TLS_LibID s) (OS_TLS_LockPoolTbl s) h
       (OSRunning s) (OSTCBCurPtr s) (OSTCBHighRdyPtr s) (TCBs s) (calls s).

Definition set_TCBs (m : gmap nat OS_TCB) (s : OS) : OS :=
  mkOS (OS_TLS_NextAvailID s) (OS_TLS_LibID s) (OS_TLS_LockPoolTbl s)
       (OS_TLS_LockPoolListPtr s) (OSRunning s) (OSTCBCurPtr s)
       (OSTCBHighRdyPtr s) m (calls s).

Definition call (c : ext_call) (s : OS) : OS :=
  mkOS (OS_TLS_NextAvailID s) (OS_TLS_LibID s) (OS_TLS_LockPoolTbl s)
       (OS_TLS_LockPoolListPtr s) (OSRunning s) (OSTCBCurPtr s)
       (OSTCBHighRdyPtr s) (TCBs s) (c :: calls s).

(** [p_lock->NextPtr = nxt], a store through a pointer into the pool. *)
Definition set_NextPtr (p : nat) (nxt : option nat) (s : OS) : OS :=
  set_LockPoolTbl (<[p := mkLock nxt]> (OS_TLS_LockPoolTbl s)) s.

(** The part of the state that makes up the lock pool. *)
Definition pool (s : OS) : list OS_TLS_LOCK * option nat :=
  (OS_TLS_LockPoolTbl s, OS_TLS_LockPoolListPtr s).

(** The statics as the C start-up code leaves them (all zero), for a pool
    of [lock_max] entries, before the kernel has created any task. *)
Definition boot (lock_max : nat) : OS :=
  mkOS 0 0 (replicate lock_max (mkLock None)) None OS_STATE_OS_STOPPED
       None None ∅ [].

(** The head of the free list is null or designates an entry of the pool. *)
Definition ListPtr_valid (s : OS) : Prop :=
  match OS_TLS_LockPoolListPtr s with
  | None => True
  | Some p => (p < length (OS_TLS_LockPoolTbl s))%nat
  end.

(** What the runtime does with the pool: it creates locks and deletes
    locks.  [Create p_lock err] calls [OS_TLS_LockCreate] with a non-null
    ([true]) or null ([false]) [p_lock], [err] being what [OSMutexCreate]
    reports if it is called; [Delete p_lock err] calls [OS_TLS_LockDel] on
    the handle [p_lock], [err] being what [OSMutexDel] reports. *)
Inductive lock_op : Type :=
  | Create (p_lock : bool) (err : OS_ERR)
  | Delete (p_lock : option nat) (err : OS_ERR).

(** How a sequence of pool operations ends: in a state, with the list of
    checked-out entries; in undefined behaviour; or at a Delete of a
    non-null handle that is not checked out. *)
Inductive outcome : Type :=
  | Done (s : OS) (held : list nat)
  | Undefined
  | NotHeld.

(** States and inputs used to exercise the theorems, for a pool of two
    locks and tables of four registers: the state [OS_TLS_Init] leaves when
    run on [boot 2]; a running kernel whose current task 1 has TLS (its
    options are 0) and its library segment at address 4096; and the lock
    scenario of section 8 of the specification, with a failing mutex
    deletion. *)
Definition after_init : OS :=
  mkOS 1 0 [mkLock (Some 1%nat); mkLock None] (Some 0%nat)
       OS_STATE_OS_STOPPED None None ∅ [].

Definition running_task : OS :=
  mkOS 2 0 [mkLock (Some 1%nat); mkLock None] (Some 0%nat)
       OS_STATE_OS_RUNNING (Some 1%nat) (Some 1%nat)
       {[ 1%nat := mkTCB 0 [4096; 0; 0; 0] ]} [].

(** [after_init] once the kernel has built the TCB of task 1 (options 0,
    so with TLS) and cleared its table, before the creation hook runs. *)
Definition task_cleared : OS :=
  mkOS 1 0 [mkLock (Some 1%nat); mkLock None] (Some 0%nat)
       OS_STATE_OS_STOPPED None None {[ 1%nat := mkTCB 0 [0; 0; 0; 0] ]} [].

Definition scenario : list lock_op :=
  [Create true OS_ERR_NONE; Create true OS_ERR_NONE; Create true OS_ERR_NONE;
   Delete (Some 0%nat) (OS_ERR_OTHER 1); Create true OS_ERR_NONE].

(** More states for the same configuration: [running_task] after register
    1 of task 1 has been set to 77; [after_init] with a task 1 created
    without TLS (its options are [OS_OPT_TASK_NO_TLS] = 0x0100); [after_init]
    with both locks checked out; and two lock cells of the runtime, at
    addresses 10 and 11, that hold no handle yet. *)
Definition running_task_set : OS :=
  mkOS 2 0 [mkLock (Some 1%nat); mkLock None] (Some 0%nat)
       OS_STATE_OS_RUNNING (Some 1%nat) (Some 1%nat)
       {[ 1%nat := mkTCB 0 [4096; 77; 0; 0] ]} [].

Definition no_tls_task : OS :=
  mkOS 1 0 [mkLock (Some 1%nat); mkLock None] (Some 0%nat)
       OS_STATE_OS_STOPPED None None {[ 1%nat := mkTCB 256 [0; 0; 0; 0] ]} [].

Definition both_held : OS :=
  mkOS 1 0 [mkLock (Some 1%nat); mkLock None] None
       OS_STATE_OS_RUNNING None None ∅ [OSMutexCreate 1; OSMutexCreate 0].

Definition cells : gmap nat (option nat) := {[ 10%nat := None; 11%nat := None ]}.

Section os_tls.

(** *** Build-time configuration

    These come from os_cfg.h, os.h, cpu.h and the IAR headers. *)

(** Number of TLS registers of a task. *)
Variable OS_CFG_TLS_TBL_SIZE : N.
(** Number of entries of the lock pool ([_MAX_LOCK], plus [FOPEN_MAX]
    when the runtime locks files). *)
Variable OS_TLS_LOCK_MAX : nat.
(** [OS_CFG_ARG_CHK_EN > 0u]. *)
Variable OS_CFG_ARG_CHK_EN : bool.
(** Task option bits. *)
Variable OS_OPT_TASK_NO_TLS : OS_OPT.
Variable OS_OPT_NONE : OS_OPT.
(** Width in bits of [CPU_DATA] and of [uintptr_t]. *)
Variable CPU_DATA_BITS : N.
Variable UINTPTR_BITS : N.
(** [__segment_begin("__DLIB_PERTHREAD")] and the macro
    [__IAR_DLIB_PERTHREAD_SYMBOL_OFFSET]. *)
Variable DLIB_PERTHREAD_begin : N.
Variable IAR_DLIB_PERTHREAD_SYMBOL_OFFSET : N → N.

(** Conversions to [CPU_DATA] (also [OS_TLS_ID]) and to [uintptr_t]. *)
Definition to_CPU_DATA (n : N) : N := n mod 2 ^ CPU_DATA_BITS.
Definition to_uintptr (n : N) : N := n mod 2 ^ UINTPTR_BITS.

(** ** TLS slot allocator *)

Definition OS_TLS_GetID (s : OS) : OS * OS_TLS_ID * OS_ERR :=
  if OS_CFG_TLS_TBL_SIZE <=? OS_TLS_NextAvailID s then
    (s, to_CPU_DATA OS_CFG_TLS_TBL_SIZE, OS_ERR_TLS_NO_MORE_AVAIL)
  else
    let id := OS_TLS_NextAvailID s in
    (set_NextAvailID (to_CPU_DATA (OS_TLS_NextAvailID s + 1)) s, id, OS_ERR_NONE).

(** [n] successive calls; the results are listed in call order. *)
Fixpoint GetID_n (n : nat) (s : OS) : OS * list (OS_TLS_ID * OS_ERR) :=
  match n with
  | O => (s, [])
  | S n' =>
      let '(s1, id, err) := OS_TLS_GetID s in
      let '(s2, rs) := GetID_n n' s1 in
      (s2, (id, err) :: rs)
  end.

(** ** TLS value store *)

(** [(p_tcb->Opt & OS_OPT_TASK_NO_TLS) == OS_OPT_NONE] *)
Definition TLS_enabled (tcb : OS_TCB) : bool :=
  N.land (Opt tcb) OS_OPT_TASK_NO_TLS =? OS_OPT_NONE.

(** The TCB the call works on: [p_tcb], or [OSTCBCurPtr] when [p_tcb] is
    null. *)
Definition resolve_tcb (s : OS) (p_tcb : option nat) : option nat :=
  match p_tcb with
  | Some p => Some p
  | None => OSTCBCurPtr s
  end.

Definition OS_TLS_GetValue (s : OS) (p_tcb : option nat) (id : OS_TLS_ID)
  : option (OS_TLS * OS_ERR) :=
  if OS_CFG_ARG_CHK_EN && (OS_TLS_NextAvailID s <=? id) then
    Some (0, OS_ERR_TLS_ID_INVALID)
  else
    match resolve_tcb s p_tcb with
    | None => Some (0, OS_ERR_OS_NOT_RUNNING)
    | Some p =>
        tcb ← TCBs s !! p;
        if TLS_enabled tcb then
          value ← TLS_Tbl tcb !! N.to_nat id;
          Some (value, OS_ERR_NONE)
        else Some (0, OS_ERR_TLS_NOT_EN)
    end.

Definition OS_TLS_SetDestruct (s : OS) (id : OS_TLS_ID) (p_destruct : N)
  : OS * OS_ERR :=
  (s, OS_ERR_NONE).

Definition OS_TLS_SetValue (s : OS) (p_tcb : option nat) (id : OS_TLS_ID)
    (value : OS_TLS) : option (OS * OS_ERR) :=
  if OS_CFG_ARG_CHK_EN && (OS_TLS_NextAvailID s <=? id) then
    Some (s, OS_ERR_TLS_ID_INVALID)
  else
    match resolve_tcb s p_tcb with
    | None => Some (s, OS_ERR_OS_NOT_RUNNING)
    | Some p =>
        tcb ← TCBs s !! p;
        if TLS_enabled tcb then
          _ ← TLS_Tbl tcb !! N.to_nat id;
          let tcb' := mkTCB (Opt tcb) (<[N.to_nat id := value]> (TLS_Tbl tcb)) in
          Some (set_TCBs (<[p := tcb']> (TCBs s)) s, OS_ERR_NONE)
        else Some (s, OS_ERR_TLS_NOT_EN)
    end.

(** ** Initialisation *)

(** The [for] loop of [OS_TLS_Init], entered with counter [ix].  The
    counter is a [CPU_INT16U], so [ix++] wraps at [2 ^ 16]; the index
    [ix + 1u] is computed in [unsigned int] and does not.  [fuel] bounds
    the number of iterations, [None] reports that the loop is still
    running when the fuel is used up. *)
Fixpoint Init_links (fuel : nat) (ix : nat) (s : OS) : option OS :=
  if (ix <? OS_TLS_LOCK_MAX - 1)%nat then
    match fuel with
    | O => None
    | S fuel' =>
        Init_links fuel' ((ix + 1) `mod` 2 ^ 16)%nat
                   (set_NextPtr ix (Some (ix + 1)%nat) s)
    end
  else Some s.

(** The loop is given [OS_TLS_LOCK_MAX] iterations: it needs
    [OS_TLS_LOCK_MAX - 1] of them when the counter does not wrap, and
    never ends when it does. *)
Definition OS_TLS_Init (s : OS) : option (OS * OS_ERR) :=
  let s := set_NextAvailID 0 s in
  let '(s, id, err) := OS_TLS_GetID s in
  let s := set_LibID id s in
  s ← Init_links OS_TLS_LOCK_MAX 0%nat s;
  let s := set_NextPtr (OS_TLS_LOCK_MAX - 1) None s in
  let s := set_LockPoolListPtr (Some 0%nat) s in
  Some (s, err).

(** ** Task hooks *)

(** [p_tls] is the pointer returned by [__iar_dlib_perthread_allocate]. *)
Definition OS_TLS_TaskCreate (s : OS) (p_tcb : nat) (p_tls : OS_TLS)
  : option OS :=
  tcb ← TCBs s !! p_tcb;
  if TLS_enabled tcb then
    let s := call iar_dlib_perthread_allocate s in
    let s := call (iar_dlib_perthread_initialize p_tls) s in
    _ ← TLS_Tbl tcb !! N.to_nat (OS_TLS_LibID s);
    let tcb' :=
      mkTCB (Opt tcb) (<[N.to_nat (OS_TLS_LibID s) := p_tls]> (TLS_Tbl tcb)) in
    Some (set_TCBs (<[p_tcb := tcb']> (TCBs s)) s)
  else Some s.

Definition OS_TLS_TaskDel (s : OS) (p_tcb : nat) : option OS :=
  tcb ← TCBs s !! p_tcb;
  if TLS_enabled tcb then
    p_tls ← TLS_Tbl tcb !! N.to_nat (OS_TLS_LibID s);
    let s := call iar_dlib_perthread_destroy s in
    let s := call (iar_dlib_perthread_deallocate p_tls) s in
    let tcb' :=
      mkTCB (Opt tcb) (<[N.to_nat (OS_TLS_LibID s) := 0]> (TLS_Tbl tcb)) in
    Some (set_TCBs (<[p_tcb := tcb']> (TCBs s)) s)
  else Some s.

Definition OS_TLS_TaskSw (s : OS) : option OS :=
  p ← OSTCBHighRdyPtr s;
  tcb ← TCBs s !! p;
  if TLS_enabled tcb then Some s else Some s.

(** The TCB as [OSTaskCreate] hands it to [OS_TLS_TaskCreate]: the options
    of the task are recorded and, by note 2 of [OS_TLS_TaskCreate], every
    entry of [TLS_Tbl] has been cleared. *)
Definition cleared_tcb (opt : OS_OPT) : OS_TCB :=
  mkTCB opt (replicate (N.to_nat OS_CFG_TLS_TBL_SIZE) 0).

(** ** Lock pool *)

(** [p_lock] tells whether the [void **] argument is non-null; the second
    component of the result is what is stored in [*p_lock], if anything:
    [None] when nothing is stored, [Some None] for a null handle and
    [Some (Some p)] for the entry [p].  [err] is the error code reported
    by [OSMutexCreate]. *)
Definition OS_TLS_LockCreate (s : OS) (p_lock : bool) (err : OS_ERR)
  : option (OS * option (option nat)) :=
  if negb p_lock then Some (s, None)
  else
    match OS_TLS_LockPoolListPtr s with
    | None => Some (s, Some None)
    | Some p =>
        p_tls_lock ← OS_TLS_LockPoolTbl s !! p;
        let s := set_LockPoolListPtr (NextPtr p_tls_lock) s in
        let s := call (OSMutexCreate p) s in
        if bool_decide (err ≠ OS_ERR_NONE) then
          let s := set_NextPtr p (OS_TLS_LockPoolListPtr s) s in
          let s := set_LockPoolListPtr (Some p) s in
          Some (s, Some None)
        else Some (s, Some (Some p))
    end.

(** [err] is the error code reported by [OSMutexDel]; the function does
    not look at it. *)
Definition OS_TLS_LockDel (s : OS) (p_lock : option nat) (err : OS_ERR)
  : option OS :=
  match p_lock with
  | None => Some s
  | Some p =>
      let s := call (OSMutexDel p) s in
      _ ← OS_TLS_LockPoolTbl s !! p;
      let s := set_NextPtr p (OS_TLS_LockPoolListPtr s) s in
      let s := set_LockPoolListPtr (Some p) s in
      Some s
  end.

Definition OS_TLS_LockAcquire (s : OS) (p_lock : option nat) : OS :=
  match p_lock with
  | None => s
  | Some p =>
      if bool_decide (OSRunning s ≠ OS_STATE_OS_RUNNING) then s
      else call (OSMutexPend p) s
  end.

Definition OS_TLS_LockRelease (s : OS) (p_lock : option nat) : OS :=
  match p_lock with
  | None => s
  | Some p =>
      if bool_decide (OSRunning s ≠ OS_STATE_OS_RUNNING) then s
      else call (OSMutexPost p) s
  end.

(** ** DLIB per-thread address resolver *)

Definition __iar_dlib_perthread_access (s : OS) (symbp : N) : option N :=
  p_tls ←
    (if bool_decide (OSRunning s ≠ OS_STATE_OS_RUNNING) then
       Some DLIB_PERTHREAD_begin
     else
       p ← OSTCBCurPtr s;
       tcb ← TCBs s !! p;
       TLS_Tbl tcb !! N.to_nat (OS_TLS_LibID s));
  let tls_start := to_uintptr p_tls in
  let tls_offset := to_uintptr (IAR_DLIB_PERTHREAD_SYMBOL_OFFSET symbp) in
  Some (to_uintptr (tls_start + tls_offset)).

(** ** The free list and the clients of the pool *)

(** The entries met when following [NextPtr] from [h]; [None] when the
    walk leaves the table or does not end within [fuel] steps. *)
Fixpoint walk (fuel : nat) (tbl : list OS_TLS_LOCK) (h : option nat)
  : option (list nat) :=
  match h with
  | None => Some []
  | Some p =>
      match fuel with
      | O => None
      | S fuel' =>
          lock ← tbl !! p;
          l ← walk fuel' tbl (NextPtr lock);
          Some (p :: l)
      end
  end.

Definition free_list (s : OS) : option (list nat) :=
  walk (length (OS_TLS_LockPoolTbl s)) (OS_TLS_LockPoolTbl s)
       (OS_TLS_LockPoolListPtr s).

(** [chain tbl h l]: following [NextPtr] from [h] visits exactly [l] and
    then reaches the null pointer. *)
Fixpoint chain (tbl : list OS_TLS_LOCK) (h : option nat) (l : list nat) : Prop :=
  match l with
  | [] => h = None
  | p :: l' => h = Some p ∧ ∃ nxt, tbl !! p = Some (mkLock nxt) ∧ chain tbl nxt l'
  end.

(** Removes the first occurrence of [p]; [None] when [p] does not occur. *)
Fixpoint take_out (p : nat) (held : list nat) : option (list nat) :=
  match held with
  | [] => None
  | x :: held' =>
      if decide (x = p) then Some held'
      else held'' ← take_out p held'; Some (x :: held'')
  end.

(** Runs [ops] from [s]; [held] lists the checked-out entries, that is
    the handles Create has returned and Delete has not yet taken back.
    A null handle may always be passed to Delete; [NotHeld] reports a
    Delete of a non-null handle that is not checked out. *)
Fixpoint client_run (ops : list lock_op) (s : OS) (held : list nat) : outcome :=
  match ops with
  | [] => Done s held
  | Create p_lock err :: ops' =>
      match OS_TLS_LockCreate s p_lock err with
      | None => Undefined
      | Some (s', Some (Some p)) => client_run ops' s' (p :: held)
      | Some (s', _) => client_run ops' s' held
      end
  | Delete None err :: ops' =>
      match OS_TLS_LockDel s None err with
      | None => Undefined
      | Some s' => client_run ops' s' held
      end
  | Delete (Some p) err :: ops' =>
      match take_out p held with
      | None => NotHeld
      | Some held' =>
          match OS_TLS_LockDel s (Some p) err with
          | None => Undefined
          | Some s' => client_run ops' s' held'
          end
      end
  end.

(** The conservation invariant of the pool, for a state [s] and the
    checked-out entries [held]: the table has its declared size, the free
    list is a null-terminated chain, and the free and the checked-out
    entries together are the entries of the table, each one once. *)
Definition pool_inv (s : OS) (held : list nat) : Prop :=
  length (OS_TLS_LockPoolTbl s) = OS_TLS_LOCK_MAX
  ∧ ∃ free, chain (OS_TLS_LockPoolTbl s) (OS_TLS_LockPoolListPtr s) free
          ∧ free ++ held ≡ₚ seq 0 OS_TLS_LOCK_MAX.

(** ** The lock hooks of the DLIB runtime

    The runtime keeps each of its locks in an [__iar_Rmtx] object, a cell
    that holds a handle.  [m] maps the address of every such object to the
    handle it holds; [p_lock] is the address passed to the hook, [None]
    for a null pointer.  Reading or writing [*p_lock] for an address that
    designates no object is undefined. *)

Definition __iar_system_Mtxinit (s : OS) (m : gmap nat (option nat))
    (p_lock : option nat) (err : OS_ERR) : option (OS * gmap nat (option nat)) :=
  '(s', stored) ← OS_TLS_LockCreate s (bool_decide (p_lock ≠ None)) err;
  match p_lock, stored with
  | Some c, Some h => _ ← m !! c; Some (s', <[c := h]> m)
  | _, _ => Some (s', m)
  end.

Definition __iar_system_Mtxdst (s : OS) (m : gmap nat (option nat))
    (p_lock : option nat) (err : OS_ERR) : option (OS * gmap nat (option nat)) :=
  c ← p_lock;
  h ← m !! c;
  s' ← OS_TLS_LockDel s h err;
  Some (s', m).

Definition __iar_system_Mtxlock (s : OS) (m : gmap nat (option nat))
    (p_lock : option nat) : option (OS * gmap nat (option nat)) :=
  c ← p_lock;
  h ← m !! c;
  Some (OS_TLS_LockAcquire s h, m).

Definition __iar_system_Mtxunlock (s : OS) (m : gmap nat (option nat))
    (p_lock : option nat) : option (OS * gmap nat (option nat)) :=
  c ← p_lock;
  h ← m !! c;
  Some (OS_TLS_LockRelease s h, m).

Definition __iar_file_Mtxinit (s : OS) (m : gmap nat (option nat))
    (p_lock : option nat) (err : OS_ERR) : option (OS * gmap nat (option nat)) :=
  '(s', stored) ← OS_TLS_LockCreate s (bool_decide (p_lock ≠ None)) err;
  match p_lock, stored with
  | Some c, Some h => _ ← m !! c; Some (s', <[c := h]> m)
  | _, _ => Some (s', m)
  end.

Definition __iar_file_Mtxdst (s : OS) (m : gmap nat (option nat))
    (p_lock : option nat) (err : OS_ERR) : option (OS * gmap nat (option nat)) :=
  c ← p_lock;
  h ← m !! c;
  s' ← OS_TLS_LockDel s h err;
  Some (s', m).

Definition __iar_file_Mtxlock (s : OS) (m : gmap nat (option nat))
    (p_lock : option nat) : option (OS * gmap nat (option nat)) :=
  c ← p_lock;
  h ← m !! c;
  Some (OS_TLS_LockAcquire s h, m).

Definition __iar_file_Mtxunlock (s : OS) (m : gmap nat (option nat))
    (p_lock : option nat) : option (OS * gmap nat (option nat)) :=
  c ← p_lock;
  h ← m !! c;
  Some (OS_TLS_LockRelease s h, m).

(** ** The services as a whole *)

(** What holds of the TLS variables once [OS_TLS_Init] has run: the
    library slot has been issued, the counter is within the table size, and
    the [TLS_Tbl] of every task has its declared size. *)
Definition tls_inv (s : OS) : Prop :=
  OS_TLS_LibID s < OS_TLS_NextAvailID s
  ∧ OS_TLS_NextAvailID s ≤ OS_CFG_TLS_TBL_SIZE
  ∧ ∀ p tcb, TCBs s !! p = Some tcb →
             length (TLS_Tbl tcb) = N.to_nat OS_CFG_TLS_TBL_SIZE.

(** One call of a function of os_tls.c other than [OS_TLS_Init], with its
    arguments and with what the services it calls report. *)
Inductive tls_call : Type :=
  | CallGetID
  | CallGetValue (p_tcb : option nat) (id : OS_TLS_ID)
  | CallSetValue (p_tcb : option nat) (id : OS_TLS_ID) (value : OS_TLS)
  | CallSetDestruct (id : OS_TLS_ID) (p_destruct : N)
  | CallTaskCreate (p_tcb : nat) (p_tls : OS_TLS)
  | CallTaskDel (p_tcb : nat)
  | CallTaskSw
  | CallLockCreate (p_lock : bool) (err : OS_ERR)
  | CallLockDel (p_lock : option nat) (err : OS_ERR)
  | CallLockAcquire (p_lock : option nat)
  | CallLockRelease (p_lock : option nat).

(** The state after the call; [None] when the call is undefined. *)
Definition tls_step (s : OS) (c : tls_call) : option OS :=
  match c with
  | CallGetID => Some (OS_TLS_GetID s).1.1
  | CallGetValue p_tcb id => _ ← OS_TLS_GetValue s p_tcb id; Some s
  | CallSetValue p_tcb id value => fst <$> OS_TLS_SetValue s p_tcb id value
  | CallSetDestruct id p_destruct => Some (OS_TLS_SetDestruct s id p_destruct).1
  | CallTaskCreate p_tcb p_tls => OS_TLS_TaskCreate s p_tcb p_tls
  | CallTaskDel p_tcb => OS_TLS_TaskDel s p_tcb
  | CallTaskSw => OS_TLS_TaskSw s
  | CallLockCreate p_lock err => fst <$> OS_TLS_LockCreate s p_lock err
  | CallLockDel p_lock err => OS_TLS_LockDel s p_lock err
  | CallLockAcquire p_lock => Some (OS_TLS_LockAcquire s p_lock)
  | CallLockRelease p_lock => Some (OS_TLS_LockRelease s p_lock)
  end.

Fixpoint tls_run (cs : list tls_call) (s : OS) : option OS :=
  match cs with
  | [] => Some s
  | c :: cs' => s' ← tls_step s c; tls_run cs' s'
  end.

(** ** Properties of the value store *)

(** C4.  With argument checking compiled in, an [id] that is not below
    [OS_TLS_NextAvailID] makes [OS_TLS_GetValue] return 0 with
    [OS_ERR_TLS_ID_INVALID] and [OS_TLS_SetValue] report
    [OS_ERR_TLS_ID_INVALID] and change nothing, for every [p_tcb] (null or
    not) and every state: a stopped kernel, a task without TLS, even a
    [p_tcb] that designates no task. *)
Theorem unissued_id_is_invalid (s : OS) (p_tcb : option nat)
    (id : OS_TLS_ID) (value : OS_TLS) :
  OS_CFG_ARG_CHK_EN = true →
  OS_TLS_NextAvailID s ≤ id →
  OS_TLS_GetValue s p_tcb id = Some (0, OS_ERR_TLS_ID_INVALID)
  ∧ OS_TLS_SetValue s p_tcb id value = Some (s, OS_ERR_TLS_ID_INVALID).
Proof.
  intros Hchk Hid. unfold OS_TLS_GetValue, OS_TLS_SetValue. rewrite Hchk.
  destruct (N.leb_spec (OS_TLS_NextAvailID s) id); [done|lia].
Qed.

(** C5, as the code has it.  When the [id] passes the argument check
    (it is below [OS_TLS_NextAvailID], or the check is compiled out), a
    null [p_tcb] while [OSTCBCurPtr] is null makes [OS_TLS_GetValue]
    return 0 with [OS_ERR_OS_NOT_RUNNING] and [OS_TLS_SetValue] report
    [OS_ERR_OS_NOT_RUNNING] and change nothing. *)
Theorem current_task_before_start (s : OS) (id : OS_TLS_ID) (value : OS_TLS) :
  OSTCBCurPtr s = None →
  OS_CFG_ARG_CHK_EN = false ∨ id < OS_TLS_NextAvailID s →
  OS_TLS_GetValue s None id = Some (0, OS_ERR_OS_NOT_RUNNING)
  ∧ OS_TLS_SetValue s None id value = Some (s, OS_ERR_OS_NOT_RUNNING).
Proof.
  intros Hcur Hid. unfold OS_TLS_GetValue, OS_TLS_SetValue, resolve_tcb.
  rewrite Hcur.
  destruct Hid as [->|Hid]; [done|].
  destruct (N.leb_spec (OS_TLS_NextAvailID s) id); [lia|].
  by rewrite andb_false_r.
Qed.

(** [OS_TLS_SetValue] on a task with TLS and a register inside the
    table stores the value in that register of that task. *)
Lemma SetValue_stores (s : OS) (p_tcb : option nat) (p : nat) (tcb : OS_TCB)
    (id : OS_TLS_ID) (value : OS_TLS) :
  resolve_tcb s p_tcb = Some p →
  TCBs s !! p = Some tcb →
  TLS_enabled tcb = true →
  id < OS_TLS_NextAvailID s →
  (N.to_nat id < length (TLS_Tbl tcb))%nat →
  OS_TLS_SetValue s p_tcb id value =
    Some (set_TCBs (<[p := mkTCB (Opt tcb) (<[N.to_nat id := value]> (TLS_Tbl tcb))]>
                      (TCBs s)) s,
          OS_ERR_NONE).
Proof.
  intros Hres Htcb Hen Hid Hlen. unfold OS_TLS_SetValue.
  destruct (N.leb_spec (OS_TLS_NextAvailID s) id); [lia|].
  rewrite andb_false_r, Hres. cbn. rewrite Htcb. cbn. rewrite Hen.
  destruct (lookup_lt_is_Some_2 _ _ Hlen) as [old ->]. reflexivity.
Qed.

Lemma GetValue_reads (s : OS) (p_tcb : option nat) (p : nat) (tcb : OS_TCB)
    (id : OS_TLS_ID) (value : OS_TLS) :
  resolve_tcb s p_tcb = Some p →
  TCBs s !! p = Some tcb →
  TLS_enabled tcb = true →
  id < OS_TLS_NextAvailID s →
  TLS_Tbl tcb !! N.to_nat id = Some value →
  OS_TLS_GetValue s p_tcb id = Some (value, OS_ERR_NONE).
Proof.
  intros Hres Htcb Hen Hid Hval. unfold OS_TLS_GetValue.
  destruct (N.leb_spec (OS_TLS_NextAvailID s) id); [lia|].
  rewrite andb_false_r, Hres. cbn. rewrite Htcb. cbn. rewrite Hen, Hval.
  reflexivity.
Qed.

(** C6, as the code has it.  In a state whose counter is within the
    table size, for a task with TLS (designated by [p_tcb], or the current
    task when [p_tcb] is null) whose table has [OS_CFG_TLS_TBL_SIZE]
    registers and an [id] below [OS_TLS_NextAvailID]: [OS_TLS_SetValue]
    reports [OS_ERR_NONE] and [OS_TLS_GetValue] then returns the value set,
    with [OS_ERR_NONE].  And when the library slot has been allocated, a
    task created with TLS, its table cleared and its creation hook
    [OS_TLS_TaskCreate] run, reads, with [OS_ERR_NONE], as 0 in every valid
    register except [OS_TLS_LibID], where it reads as the segment pointer
    that the hook has stored. *)
Theorem Set_then_Get (s : OS) :
  OS_TLS_NextAvailID s ≤ OS_CFG_TLS_TBL_SIZE →
  (∀ p_tcb p tcb id value,
     resolve_tcb s p_tcb = Some p →
     TCBs s !! p = Some tcb →
     TLS_enabled tcb = true →
     length (TLS_Tbl tcb) = N.to_nat OS_CFG_TLS_TBL_SIZE →
     id < OS_TLS_NextAvailID s →
     ∃ s', OS_TLS_SetValue s p_tcb id value = Some (s', OS_ERR_NONE)
         ∧ OS_TLS_GetValue s' p_tcb id = Some (value, OS_ERR_NONE))
  ∧ (∀ p opt p_tls id,
       TCBs s !! p = Some (cleared_tcb opt) →
       TLS_enabled (cleared_tcb opt) = true →
       OS_TLS_LibID s < OS_TLS_NextAvailID s →
       id < OS_TLS_NextAvailID s →
       ∃ s', OS_TLS_TaskCreate s p p_tls = Some s'
           ∧ OS_TLS_GetValue s' (Some p) id =
               Some (if decide (id = OS_TLS_LibID s) then p_tls else 0,
                     OS_ERR_NONE)).
Proof.
  intros Hcount. split.
  - intros p_tcb p tcb id value Hres Htcb Hen Hlen Hid.
    eexists. split.
    + apply (SetValue_stores s p_tcb p tcb); [done..|lia].
    + apply (GetValue_reads _ p_tcb p
               (mkTCB (Opt tcb) (<[N.to_nat id := value]> (TLS_Tbl tcb)))).
      * by destruct p_tcb.
      * cbn. apply lookup_insert_eq.
      * done.
      * done.
      * cbn. apply list_lookup_insert_eq. lia.
  - intros p opt p_tls id Htcb Hen Hlib Hid.
    unfold OS_TLS_TaskCreate. rewrite Htcb. cbn. rewrite Hen.
    rewrite lookup_replicate_2 by lia. cbn.
    eexists. split; [reflexivity|].
    apply (GetValue_reads _ (Some p) p
             (mkTCB opt (<[N.to_nat (OS_TLS_LibID s) := p_tls]>
                           (replicate (N.to_nat OS_CFG_TLS_TBL_SIZE) 0))));
      [done| |done|done|].
    + cbn. apply lookup_insert_eq.
    + cbn. destruct (decide (id = OS_TLS_LibID s)) as [->|Hne].
      * apply list_lookup_insert_eq. rewrite length_replicate. lia.
      * rewrite list_lookup_insert_ne by lia.
        apply lookup_replicate_2. lia.
Qed.

(** C9.  [OS_TLS_SetDestruct] reports [OS_ERR_NONE] for every [id],
    valid or not, and changes nothing; so it does for the ID 5 in the state
    [OS_TLS_Init] leaves, where only ID 0 has been issued: the error
    [OS_ERR_TLS_ID_INVALID] that the function's header announces for an
    invalid ID is never reported. *)
Theorem SetDestruct_always_none :
  (∀ (s : OS) (id : OS_TLS_ID) (p_destruct : N),
     OS_TLS_SetDestruct s id p_destruct = (s, OS_ERR_NONE))
  ∧ OS_TLS_NextAvailID after_init ≤ 5
  ∧ OS_TLS_SetDestruct after_init 5 4096 = (after_init, OS_ERR_NONE).
Proof. split; [reflexivity|]. split; [cbn; lia|reflexivity]. Qed.

(** ** Properties of Acquire, Release and the resolver *)

(** C7.  With a null handle, or while [OSRunning] is not
    [OS_STATE_OS_RUNNING], [OS_TLS_LockAcquire] and [OS_TLS_LockRelease]
    return the state they were given: no kernel service is called and the
    pool is not touched.  With a non-null handle and a running kernel
    they do nothing but call [OSMutexPend], respectively [OSMutexPost],
    on the mutex of the entry. *)
Theorem Acquire_Release_guard (s : OS) (p_lock : option nat) :
  (p_lock = None ∨ OSRunning s ≠ OS_STATE_OS_RUNNING →
     OS_TLS_LockAcquire s p_lock = s ∧ OS_TLS_LockRelease s p_lock = s)
  ∧ (∀ p, p_lock = Some p → OSRunning s = OS_STATE_OS_RUNNING →
       OS_TLS_LockAcquire s p_lock = call (OSMutexPend p) s
       ∧ OS_TLS_LockRelease s p_lock = call (OSMutexPost p) s).
Proof.
  unfold OS_TLS_LockAcquire, OS_TLS_LockRelease. split.
  - intros [->|Hrun]; [done|]. destruct p_lock; [|done].
    by rewrite bool_decide_eq_true_2.
  - intros p -> Hrun. by rewrite bool_decide_eq_false_2 by (by intros []).
Qed.

Lemma to_uintptr_add (a b : N) :
  to_uintptr (to_uintptr a + to_uintptr b) = to_uintptr (a + b).
Proof.
  unfold to_uintptr. symmetry. apply N.Div0.add_mod.
Qed.

(** C8.  [__iar_dlib_perthread_access] returns base + offset, computed
    in [uintptr_t], where offset is
    [__IAR_DLIB_PERTHREAD_SYMBOL_OFFSET(symbp)] and base is the start of
    the [__DLIB_PERTHREAD] segment while the kernel is not running, and
    the value of register [OS_TLS_LibID] of the current task's TLS table
    once it runs; the sum is the mathematical one when it fits a
    [uintptr_t]. *)
Theorem perthread_access_base (s : OS) (symbp : N) :
  (OSRunning s ≠ OS_STATE_OS_RUNNING →
     __iar_dlib_perthread_access s symbp =
       Some (to_uintptr (DLIB_PERTHREAD_begin
                         + IAR_DLIB_PERTHREAD_SYMBOL_OFFSET symbp)))
  ∧ (∀ p tcb seg,
       OSRunning s = OS_STATE_OS_RUNNING →
       OSTCBCurPtr s = Some p →
       TCBs s !! p = Some tcb →
       TLS_Tbl tcb !! N.to_nat (OS_TLS_LibID s) = Some seg →
       __iar_dlib_perthread_access s symbp =
         Some (to_uintptr (seg + IAR_DLIB_PERTHREAD_SYMBOL_OFFSET symbp)))
  ∧ (∀ base, base + IAR_DLIB_PERTHREAD_SYMBOL_OFFSET symbp < 2 ^ UINTPTR_BITS →
       to_uintptr (base + IAR_DLIB_PERTHREAD_SYMBOL_OFFSET symbp) =
         base + IAR_DLIB_PERTHREAD_SYMBOL_OFFSET symbp).
Proof.
  unfold __iar_dlib_perthread_access. split_and!.
  - intros Hrun. rewrite bool_decide_eq_true_2 by done. cbn.
    by rewrite to_uintptr_add.
  - intros p tcb seg Hrun Hcur Htcb Hseg.
    rewrite bool_decide_eq_false_2 by (by intros []).
    rewrite Hcur. cbn. rewrite Htcb. cbn. rewrite Hseg. cbn.
    by rewrite to_uintptr_add.
  - intros base Hfit. unfold to_uintptr. by apply N.mod_small.
Qed.

(** ** Properties of the lock pool *)

(** The two ways through [OS_TLS_LockCreate] once [p_lock] is known to be
    non-null: the list is empty, or its head [p] is popped and the
    outcome depends on [OSMutexCreate]. *)
Lemma LockCreate_empty (s : OS) (err : OS_ERR) :
  OS_TLS_LockPoolListPtr s = None →
  OS_TLS_LockCreate s true err = Some (s, Some None).
Proof. intros Hnil. unfold OS_TLS_LockCreate. by rewrite Hnil. Qed.

Lemma LockCreate_pop (s : OS) (err : OS_ERR) (p : nat) (nxt : option nat) :
  OS_TLS_LockPoolListPtr s = Some p →
  OS_TLS_LockPoolTbl s !! p = Some (mkLock nxt) →
  OS_TLS_LockCreate s true err =
    Some (if decide (err = OS_ERR_NONE)
          then (call (OSMutexCreate p) (set_LockPoolListPtr nxt s), Some (Some p))
          else (call (OSMutexCreate p) s, Some None)).
Proof.
  intros Hhd Hlk. unfold OS_TLS_LockCreate. rewrite Hhd. cbn. rewrite Hlk. cbn.
  destruct (decide (err = OS_ERR_NONE)) as [->|Hne].
  - by rewrite bool_decide_eq_false_2 by (by intros []).
  - rewrite bool_decide_eq_true_2 by done. do 2 f_equal.
    destruct s; cbn in Hhd, Hlk |- *.
    unfold set_LockPoolListPtr, set_NextPtr, call; cbn.
    rewrite list_insert_id by done. by subst.
Qed.

Lemma LockDel_push (s : OS) (err : OS_ERR) (p : nat) :
  (p < length (OS_TLS_LockPoolTbl s))%nat →
  OS_TLS_LockDel s (Some p) err =
    Some (set_LockPoolListPtr (Some p)
            (set_NextPtr p (OS_TLS_LockPoolListPtr s) (call (OSMutexDel p) s))).
Proof.
  intros Hp. unfold OS_TLS_LockDel. cbn.
  destruct (lookup_lt_is_Some_2 _ _ Hp) as [lock ->]. reflexivity.
Qed.

(** C3.  With a null [p_lock] nothing happens.  Otherwise, in a state
    whose list head is null or designates a pool entry,
    [OS_TLS_LockCreate] returns and stores a handle [h] such that: with
    an empty free list [h] is null and the state is unchanged; when the
    head [p] is popped and [OSMutexCreate] reports an error, [h] is null
    and the state differs from the one before the call by the record of
    that kernel call only, so that [p] is again the head of the list with
    its old link; whenever [h] is null the pool is as before; [h] is the
    entry [p] exactly when [p] was the head of the list and
    [OSMutexCreate] reported [OS_ERR_NONE]; and when [h] is the entry [p],
    [p] has been popped, that is the list head is now the link that [p]
    had and the table is untouched, and [OSMutexCreate] has been called on
    the mutex of [p], which is all that has changed. *)
Theorem LockCreate_failure_keeps_pool (s : OS) (err : OS_ERR) :
  ListPtr_valid s →
  OS_TLS_LockCreate s false err = Some (s, None)
  ∧ ∃ s' h,
      OS_TLS_LockCreate s true err = Some (s', Some h)
      ∧ (OS_TLS_LockPoolListPtr s = None → h = None ∧ s' = s)
      ∧ (∀ p, OS_TLS_LockPoolListPtr s = Some p → err ≠ OS_ERR_NONE →
           h = None ∧ s' = call (OSMutexCreate p) s)
      ∧ (h = None → pool s' = pool s)
      ∧ (∀ p, h = Some p ↔ OS_TLS_LockPoolListPtr s = Some p ∧ err = OS_ERR_NONE)
      ∧ (∀ p, h = Some p →
           ∃ nxt, OS_TLS_LockPoolTbl s !! p = Some (mkLock nxt)
                ∧ s' = call (OSMutexCreate p) (set_LockPoolListPtr nxt s)).
Proof.
  intros Hvalid. split; [reflexivity|].
  unfold ListPtr_valid in Hvalid.
  destruct (OS_TLS_LockPoolListPtr s) as [p|] eqn:Hhd.
  - destruct (lookup_lt_is_Some_2 _ _ Hvalid) as [[nxt] Hlk].
    rewrite (LockCreate_pop s err p nxt Hhd Hlk).
    destruct (decide (err = OS_ERR_NONE)) as [->|Hne].
    + eexists _, _. split; [reflexivity|]. split_and!; try done.
      * intros q. split; [by intros [= ->]|by intros [[= ->] _]].
      * intros q [= <-]. by exists nxt.
    + eexists _, _. split; [reflexivity|]. split_and!; try done.
      * by intros q [= ->] _.
      * intros q. split; [done|by intros [_ ?]].
  - rewrite LockCreate_empty by done.
    eexists _, _. split; [reflexivity|]. split_and!; try done.
    intros q. split; [done|by intros [? _]].
Qed.

(** *** The free list as a chain *)

Lemma chain_insert (tbl : list OS_TLS_LOCK) (p : nat) (x : OS_TLS_LOCK)
    (l : list nat) : ∀ h : option nat,
  p ∉ l → chain tbl h l → chain (<[p := x]> tbl) h l.
Proof.
  induction l as [|q l IH]; intros h Hp Hc; [done|].
  destruct Hc as (-> & nxt & Hlk & Hc).
  apply not_elem_of_cons in Hp as [Hpq Hpl].
  split; [done|]. exists nxt. split.
  - by rewrite list_lookup_insert_ne.
  - by apply IH.
Qed.

Lemma chain_walk (tbl : list OS_TLS_LOCK) (l : list nat) :
  ∀ (h : option nat) (fuel : nat),
  chain tbl h l → (length l ≤ fuel)%nat → walk fuel tbl h = Some l.
Proof.
  induction l as [|q l IH]; intros h fuel Hc Hlen.
  - cbn in Hc. subst h. by destruct fuel.
  - destruct Hc as (-> & nxt & Hlk & Hc).
    destruct fuel as [|fuel]; [cbn in Hlen; lia|].
    cbn. rewrite Hlk. cbn. rewrite (IH nxt fuel Hc) by (cbn in Hlen; lia).
    reflexivity.
Qed.

(** A table whose entries are linked in index order is a chain through
    the indices from [i] on. *)
Lemma chain_seq (tbl : list OS_TLS_LOCK) (n : nat) :
  (∀ i, (i + 1 < n)%nat → tbl !! i = Some (mkLock (Some (i + 1)%nat))) →
  tbl !! (n - 1)%nat = Some (mkLock None) →
  ∀ k i, (i + S k = n)%nat → chain tbl (Some i) (seq i (S k)).
Proof.
  intros Hlink Hlast. induction k as [|k IH]; intros i Hik.
  - cbn. split; [done|]. exists None. split; [|done].
    replace i with (n - 1)%nat by lia. done.
  - cbn [seq chain]. split; [done|]. exists (Some (S i)). split.
    + rewrite Hlink by lia. do 3 f_equal. lia.
    + apply IH. lia.
Qed.

Lemma take_out_perm (p : nat) (held : list nat) : ∀ held',
  take_out p held = Some held' → held ≡ₚ p :: held'.
Proof.
  induction held as [|x held IH]; intros held' Hout; [done|].
  cbn in Hout. destruct (decide (x = p)) as [->|Hne].
  - by injection Hout as ->.
  - destruct (take_out p held) as [k|]; [|done]. injection Hout as <-.
    rewrite (IH k eq_refl). apply Permutation_swap.
Qed.

Lemma take_out_elem (p : nat) (held : list nat) :
  p ∈ held → is_Some (take_out p held).
Proof.
  induction held as [|x held IH]; intros Hin; [by apply elem_of_nil in Hin|].
  cbn. destruct (decide (x = p)) as [->|Hne]; [done|].
  apply elem_of_cons in Hin as [->|Hin]; [done|].
  destruct (IH Hin) as [k ->]. done.
Qed.

(** *** Create and Delete keep the invariant *)

Lemma pool_inv_held (s : OS) (held : list nat) (p : nat) :
  pool_inv s held → p ∈ held →
  (p < length (OS_TLS_LockPoolTbl s))%nat
  ∧ ∀ free, free ++ held ≡ₚ seq 0 OS_TLS_LOCK_MAX → p ∉ free.
Proof.
  intros (Hlen & free & Hc & Hperm) Hin. split.
  - assert (p ∈ seq 0 OS_TLS_LOCK_MAX) as Hp.
    { rewrite <- Hperm. apply elem_of_app. by right. }
    apply elem_of_seq in Hp. lia.
  - intros free' Hperm' Hfree.
    assert (NoDup (free' ++ held)) as Hnd.
    { rewrite Hperm'. apply NoDup_seq. }
    apply NoDup_app in Hnd as (_ & Hdisj & _). by apply (Hdisj p).
Qed.

Lemma pool_inv_Create (s : OS) (held : list nat) (err : OS_ERR)
    (p_lock : bool) :
  pool_inv s held →
  ∃ s' h, OS_TLS_LockCreate s p_lock err = Some (s', h)
        ∧ pool_inv s' (match h with Some (Some p) => p :: held | _ => held end).
Proof.
  intros Hinv. destruct p_lock; [|by eexists _, _].
  destruct Hinv as (Hlen & free & Hc & Hperm).
  destruct free as [|p free].
  - cbn in Hc. rewrite LockCreate_empty by done.
    eexists _, _. split; [done|]. split; [done|]. exists []. by rewrite Hc.
  - destruct Hc as (Hhd & nxt & Hlk & Hc).
    rewrite (LockCreate_pop s err p nxt Hhd Hlk).
    destruct (decide (err = OS_ERR_NONE)) as [->|Hne].
    + eexists _, _. split; [done|]. split; [done|]. exists free. split; [done|].
      by rewrite <- Permutation_middle.
    + eexists _, _. split; [done|]. split; [done|]. exists (p :: free). cbn.
      rewrite Hhd. split; [|done]. split; [done|]. by exists nxt.
Qed.

Lemma pool_inv_Del (s : OS) (held held' : list nat) (err : OS_ERR) (p : nat) :
  pool_inv s held → take_out p held = Some held' →
  ∃ s', OS_TLS_LockDel s (Some p) err = Some s' ∧ pool_inv s' held'.
Proof.
  intros Hinv Hout. pose proof (take_out_perm _ _ _ Hout) as Hheld.
  assert (p ∈ held) as Hin by (rewrite Hheld; apply list_elem_of_here).
  destruct (pool_inv_held s held p Hinv Hin) as [Hp Hfresh].
  destruct Hinv as (Hlen & free & Hc & Hperm).
  rewrite LockDel_push by done. eexists. split; [done|].
  split; [cbn; by rewrite length_insert|].
  exists (p :: free). cbn. split.
  - split; [done|]. exists (OS_TLS_LockPoolListPtr s). split.
    + by apply list_lookup_insert_eq.
    + apply chain_insert; [by apply Hfresh|done].
  - rewrite <- Hperm, Hheld. by rewrite <- Permutation_middle.
Qed.

Lemma client_run_inv (ops : list lock_op) : ∀ (s : OS) (held : list nat),
  pool_inv s held →
  client_run ops s held ≠ Undefined
  ∧ ∀ s' held', client_run ops s held = Done s' held' → pool_inv s' held'.
Proof.
  induction ops as [|op ops IH]; intros s held Hinv.
  - split; [done|]. by intros s' held' [= <- <-].
  - destruct op as [p_lock err|[p|] err]; cbn [client_run].
    + destruct (pool_inv_Create s held err p_lock Hinv) as (s1 & h & -> & Hinv1).
      destruct h as [[q|]|]; by apply IH.
    + destruct (take_out p held) as [held1|] eqn:Hout; [|done].
      destruct (pool_inv_Del s held held1 err p Hinv Hout) as (s1 & -> & Hinv1).
      by apply IH.
    + cbn. by apply IH.
Qed.

(** ** Properties of the slot allocator *)

Section allocator.

(** The table size is a value of type [OS_TLS_ID]. *)
Hypothesis tbl_size_fits : OS_CFG_TLS_TBL_SIZE < 2 ^ CPU_DATA_BITS.

Lemma to_CPU_DATA_small (n : N) :
  n ≤ OS_CFG_TLS_TBL_SIZE → to_CPU_DATA n = n.
Proof. intros Hn. unfold to_CPU_DATA. apply N.mod_small. lia. Qed.

Lemma GetID_avail (s : OS) :
  OS_TLS_NextAvailID s < OS_CFG_TLS_TBL_SIZE →
  OS_TLS_GetID s =
    (set_NextAvailID (OS_TLS_NextAvailID s + 1) s, OS_TLS_NextAvailID s, OS_ERR_NONE).
Proof.
  intros Hlt. unfold OS_TLS_GetID.
  destruct (N.leb_spec OS_CFG_TLS_TBL_SIZE (OS_TLS_NextAvailID s)); [lia|].
  rewrite to_CPU_DATA_small by lia. reflexivity.
Qed.

Lemma GetID_exhausted (s : OS) :
  OS_CFG_TLS_TBL_SIZE ≤ OS_TLS_NextAvailID s →
  OS_TLS_GetID s = (s, OS_CFG_TLS_TBL_SIZE, OS_ERR_TLS_NO_MORE_AVAIL).
Proof.
  intros Hge. unfold OS_TLS_GetID.
  destruct (N.leb_spec OS_CFG_TLS_TBL_SIZE (OS_TLS_NextAvailID s)); [|lia].
  rewrite to_CPU_DATA_small by lia. reflexivity.
Qed.

(** [n] calls that all fit below the capacity hand out the [n] IDs that
    follow the counter, one after the other. *)
Lemma GetID_n_avail (n : nat) : ∀ s : OS,
  OS_TLS_NextAvailID s + N.of_nat n ≤ OS_CFG_TLS_TBL_SIZE →
  GetID_n n s =
    (set_NextAvailID (OS_TLS_NextAvailID s + N.of_nat n) s,
     (λ i : nat, (OS_TLS_NextAvailID s + N.of_nat i, OS_ERR_NONE)) <$> seq 0 n).
Proof.
  induction n as [|n IH]; intros s Hle.
  - cbn [GetID_n seq fmap list_fmap]. f_equal.
    destruct s; unfold set_NextAvailID; cbn. f_equal. lia.
  - cbn [GetID_n]. rewrite GetID_avail by lia.
    rewrite IH by (cbn; lia). cbn [seq fmap list_fmap]. f_equal.
    + unfold set_NextAvailID; cbn. f_equal. lia.
    + f_equal; [f_equal; lia|].
      rewrite <- seq_shift, <- list_fmap_compose.
      apply list_fmap_ext. intros i x _. cbn. f_equal. lia.
Qed.

Lemma GetID_n_exhausted (n : nat) (s : OS) :
  OS_CFG_TLS_TBL_SIZE ≤ OS_TLS_NextAvailID s →
  GetID_n n s = (s, replicate n (OS_CFG_TLS_TBL_SIZE, OS_ERR_TLS_NO_MORE_AVAIL)).
Proof.
  intros Hge. induction n as [|n IH]; [reflexivity|].
  cbn [GetID_n]. rewrite GetID_exhausted, IH by done. reflexivity.
Qed.

(** C2.  Starting with the counter at zero, [n ≤ OS_CFG_TLS_TBL_SIZE]
    calls of [OS_TLS_GetID] return the IDs [0, 1, ..., n - 1] in this
    order, each with [OS_ERR_NONE], and leave the counter at [n]; and
    once the counter has reached [OS_CFG_TLS_TBL_SIZE], any number of
    further calls all report [OS_ERR_TLS_NO_MORE_AVAIL], return
    [OS_CFG_TLS_TBL_SIZE] and leave the state as it is. *)
Theorem GetID_issues_0_to_n (s : OS) (n : nat) :
  OS_TLS_NextAvailID s = 0 →
  N.of_nat n ≤ OS_CFG_TLS_TBL_SIZE →
  (GetID_n n s).2 = (λ i : nat, (N.of_nat i, OS_ERR_NONE)) <$> seq 0 n
  ∧ OS_TLS_NextAvailID (GetID_n n s).1 = N.of_nat n
  ∧ ∀ (s' : OS) (m : nat),
      OS_CFG_TLS_TBL_SIZE ≤ OS_TLS_NextAvailID s' →
      OS_TLS_GetID s' = (s', OS_CFG_TLS_TBL_SIZE, OS_ERR_TLS_NO_MORE_AVAIL)
      ∧ GetID_n m s' =
          (s', replicate m (OS_CFG_TLS_TBL_SIZE, OS_ERR_TLS_NO_MORE_AVAIL)).
Proof.
  intros H0 Hn. rewrite GetID_n_avail by lia. rewrite H0. cbn [fst snd].
  split; [reflexivity|]. split; [cbn; lia|].
  intros s' m Hfull. split.
  - by apply GetID_exhausted.
  - by apply GetID_n_exhausted.
Qed.

(** Whatever the state, later calls of [OS_TLS_GetID] succeed at most as
    many times as there are IDs left. *)
Lemma GetID_n_successes (n : nat) : ∀ s : OS,
  OS_TLS_NextAvailID s ≤ OS_CFG_TLS_TBL_SIZE →
  N.of_nat (length (filter (λ r, r.2 = OS_ERR_NONE) (GetID_n n s).2))
    ≤ OS_CFG_TLS_TBL_SIZE - OS_TLS_NextAvailID s.
Proof.
  induction n as [|n IH]; intros s Hle; [cbn; lia|].
  cbn [GetID_n].
  destruct (N.lt_ge_cases (OS_TLS_NextAvailID s) OS_CFG_TLS_TBL_SIZE) as [Hlt|Hge].
  - rewrite GetID_avail by done.
    specialize (IH (set_NextAvailID (OS_TLS_NextAvailID s + 1) s)).
    destruct (GetID_n n _) as [s2 rs]. cbn [snd fst] in *.
    rewrite filter_cons_True by done. cbn [length].
    cbn in IH. lia.
  - rewrite GetID_exhausted by done.
    specialize (IH s Hle). destruct (GetID_n n s) as [s2 rs]. cbn [snd] in *.
    rewrite filter_cons_False by done. lia.
Qed.

(** ** Properties of the initialisation *)

Section init.

(** The file is compiled only when [OS_CFG_TLS_TBL_SIZE > 0u]; the pool
    is a non-empty array, and its indices fit the 16-bit counter of
    [OS_TLS_Init]. *)
Hypothesis tbl_size_pos : 0 < OS_CFG_TLS_TBL_SIZE.
Hypothesis lock_max_pos : (0 < OS_TLS_LOCK_MAX)%nat.
Hypothesis lock_max_fits : (OS_TLS_LOCK_MAX ≤ 2 ^ 16)%nat.

Lemma set_LockPoolTbl_id (s : OS) : set_LockPoolTbl (OS_TLS_LockPoolTbl s) s = s.
Proof. by destruct s. Qed.

(** The loop ends, changes nothing but the pool table, and links every
    entry from [ix] up to the last but one to its successor. *)
Lemma Init_links_run (fuel : nat) : ∀ (ix : nat) (s : OS),
  (ix ≤ OS_TLS_LOCK_MAX - 1)%nat →
  (OS_TLS_LOCK_MAX - 1 - ix ≤ fuel)%nat →
  ∃ t, Init_links fuel ix s = Some (set_LockPoolTbl t s)
     ∧ length t = length (OS_TLS_LockPoolTbl s)
     ∧ (∀ i, (ix ≤ i < OS_TLS_LOCK_MAX - 1)%nat →
             (i < length (OS_TLS_LockPoolTbl s))%nat →
             t !! i = Some (mkLock (Some (i + 1)%nat)))
     ∧ (∀ i, ¬ (ix ≤ i < OS_TLS_LOCK_MAX - 1)%nat →
             t !! i = OS_TLS_LockPoolTbl s !! i).
Proof.
  induction fuel as [|fuel IH]; intros ix s Hix Hfuel.
  - exists (OS_TLS_LockPoolTbl s). unfold Init_links.
    destruct (Nat.ltb_spec ix (OS_TLS_LOCK_MAX - 1)); [lia|].
    rewrite set_LockPoolTbl_id. split_and!; [done|done|lia|done].
  - cbn [Init_links].
    destruct (Nat.ltb_spec ix (OS_TLS_LOCK_MAX - 1)) as [Hlt|Hge].
    + rewrite Nat.mod_small by lia.
      destruct (IH (ix + 1)%nat (set_NextPtr ix (Some (ix + 1)%nat) s))
        as (t & Hrun & Hlen & Hin & Hout); [lia|lia|].
      exists t. rewrite Hrun. cbn in Hlen, Hin, Hout.
      rewrite length_insert in Hlen, Hin.
      split_and!; [done|done| |].
      * intros i Hi Hil. destruct (decide (i = ix)) as [->|Hne].
        -- rewrite Hout by lia. by apply list_lookup_insert_eq.
        -- apply Hin; lia.
      * intros i Hi. rewrite Hout by lia.
        apply list_lookup_insert_ne. lia.
    + exists (OS_TLS_LockPoolTbl s). rewrite set_LockPoolTbl_id.
      split_and!; [done|done|lia|done].
Qed.

(** What [OS_TLS_Init] returns: the library slot is ID 0, the counter is
    1, and the pool is one list through all entries in index order. *)
Lemma Init_result (s0 : OS) :
  ∃ t, OS_TLS_Init s0 =
         Some (mkOS 1 0 t (Some 0%nat) (OSRunning s0) (OSTCBCurPtr s0)
                    (OSTCBHighRdyPtr s0) (TCBs s0) (calls s0), OS_ERR_NONE)
     ∧ length t = length (OS_TLS_LockPoolTbl s0)
     ∧ (∀ i, (i + 1 < OS_TLS_LOCK_MAX)%nat →
             (i < length (OS_TLS_LockPoolTbl s0))%nat →
             t !! i = Some (mkLock (Some (i + 1)%nat)))
     ∧ ((OS_TLS_LOCK_MAX - 1 < length (OS_TLS_LockPoolTbl s0))%nat →
        t !! (OS_TLS_LOCK_MAX - 1)%nat = Some (mkLock None)).
Proof.
  unfold OS_TLS_Init. rewrite GetID_avail by (cbn; lia).
  destruct (Init_links_run OS_TLS_LOCK_MAX 0
              (set_LibID 0 (set_NextAvailID (0 + 1) (set_NextAvailID 0 s0))))
    as (t & Hrun & Hlen & Hin & Hout); [lia|lia|].
  cbn [OS_TLS_NextAvailID set_NextAvailID] in *. rewrite Hrun. cbn in Hlen, Hin, Hout |- *.
  exists (<[(OS_TLS_LOCK_MAX - 1)%nat := mkLock None]> t).
  split_and!.
  - reflexivity.
  - by rewrite length_insert.
  - intros i Hi Hil. rewrite list_lookup_insert_ne by lia. apply Hin; lia.
  - intros Hl. apply list_lookup_insert_eq. lia.
Qed.

(** C10.  [OS_TLS_Init] returns, with [OS_ERR_NONE]; afterwards the
    library slot [OS_TLS_LibID] is 0 and the counter [OS_TLS_NextAvailID]
    is 1.  The next call of [OS_TLS_GetID] returns 1, which is a valid ID
    (reported with [OS_ERR_NONE]) exactly when the table has more than one
    register; and however many calls follow the initialisation, at most
    [OS_CFG_TLS_TBL_SIZE - 1] of them succeed. *)
Theorem Init_takes_slot_0 (s0 : OS) :
  ∃ s, OS_TLS_Init s0 = Some (s, OS_ERR_NONE)
     ∧ OS_TLS_LibID s = 0
     ∧ OS_TLS_NextAvailID s = 1
     ∧ (OS_TLS_GetID s).1.2 = 1
     ∧ ((OS_TLS_GetID s).2 = OS_ERR_NONE ↔ 1 < OS_CFG_TLS_TBL_SIZE)
     ∧ ∀ n : nat,
         N.of_nat (length (filter (λ r, r.2 = OS_ERR_NONE) (GetID_n n s).2))
           ≤ OS_CFG_TLS_TBL_SIZE - 1.
Proof.
  destruct (Init_result s0) as (t & HInit & _).
  eexists. split; [exact HInit|]. split; [reflexivity|]. split; [reflexivity|].
  split_and!.
  - destruct (N.lt_ge_cases 1 OS_CFG_TLS_TBL_SIZE) as [Hlt|Hge].
    + by rewrite GetID_avail.
    + rewrite GetID_exhausted by done. cbn. lia.
  - destruct (N.lt_ge_cases 1 OS_CFG_TLS_TBL_SIZE) as [Hlt|Hge].
    + by rewrite GetID_avail.
    + rewrite GetID_exhausted by done. cbn. split; [done|lia].
  - intros n. apply (GetID_n_successes n (mkOS 1 0 _ _ _ _ _ _ _)). cbn. lia.
Qed.

Lemma pool_inv_Init (s0 s1 : OS) (err : OS_ERR) :
  length (OS_TLS_LockPoolTbl s0) = OS_TLS_LOCK_MAX →
  OS_TLS_Init s0 = Some (s1, err) → pool_inv s1 [].
Proof.
  intros Hlen HInit.
  destruct (Init_result s0) as (t & HInit' & Hlent & Hlink & Hlast).
  rewrite HInit' in HInit. injection HInit as <- _.
  split; [cbn; lia|]. exists (seq 0 OS_TLS_LOCK_MAX). cbn.
  split; [|by rewrite app_nil_r].
  replace (seq 0 OS_TLS_LOCK_MAX) with (seq 0 (S (OS_TLS_LOCK_MAX - 1)))
    by (f_equal; lia).
  apply (chain_seq t OS_TLS_LOCK_MAX).
  - intros i Hi. apply Hlink; lia.
  - apply Hlast. lia.
  - lia.
Qed.

(** What Create does on a free list that is a chain: on an empty list it
    stores a null handle and changes nothing; when [OSMutexCreate]
    succeeds it hands out the front entry and leaves the rest of the list;
    when [OSMutexCreate] fails it stores a null handle and leaves the list
    as it was. *)
Lemma LockCreate_on_chain (s : OS) (free : list nat) :
  chain (OS_TLS_LockPoolTbl s) (OS_TLS_LockPoolListPtr s) free →
  (length free ≤ length (OS_TLS_LockPoolTbl s))%nat →
  (free = [] → ∀ err, OS_TLS_LockCreate s true err = Some (s, Some None))
  ∧ (∀ p free', free = p :: free' →
       ∃ s', OS_TLS_LockCreate s true OS_ERR_NONE = Some (s', Some (Some p))
           ∧ free_list s' = Some free')
  ∧ (∀ err, err ≠ OS_ERR_NONE →
       ∃ s', OS_TLS_LockCreate s true err = Some (s', Some None)
           ∧ free_list s' = Some free).
Proof.
  intros Hc Hlen. split_and!.
  - intros -> err. cbn in Hc. by apply LockCreate_empty.
  - intros p free' ->. destruct Hc as (Hhd & nxt & Hlk & Hc).
    rewrite (LockCreate_pop s OS_ERR_NONE p nxt Hhd Hlk). rewrite decide_True by done.
    eexists. split; [reflexivity|]. unfold free_list. cbn.
    apply chain_walk; [done|]. cbn in Hlen. lia.
  - intros err Hne. destruct free as [|p free'].
    + cbn in Hc. rewrite LockCreate_empty by done. exists s. split; [done|].
      unfold free_list. rewrite Hc. by destruct (length (OS_TLS_LockPoolTbl s)).
    + pose proof Hc as (Hhd & nxt & Hlk & Hc').
      rewrite (LockCreate_pop s err p nxt Hhd Hlk). rewrite decide_False by done.
      eexists. split; [reflexivity|]. unfold free_list. cbn.
      by apply chain_walk.
Qed.

(** C1, as the code has it.  [OS_TLS_Init] returns, and from the state
    it leaves every sequence of Create and Delete calls, in which Delete
    is given a null handle or a handle that is checked out, runs without
    undefined behaviour and ends in a state where: the free list is a
    proper list [free]; [free] and the checked-out entries [held] together
    are the entries [0 .. OS_TLS_LOCK_MAX - 1], each exactly once; their
    numbers add up to [OS_TLS_LOCK_MAX]; a Create on an empty free list
    stores a null handle and changes nothing; a Create whose mutex is
    created hands out the front entry of [free] and leaves the rest; a
    Create whose mutex creation fails stores a null handle and leaves
    [free]; and deleting any checked-out entry [p], whatever [OSMutexDel]
    reports, puts [p] at the front of the free list, after which a Create
    returns [p] when its mutex is created, and a null handle, with [p]
    still at the front of the free list, when it is not. *)
Theorem pool_conservation (s0 : OS) (ops : list lock_op) :
  length (OS_TLS_LockPoolTbl s0) = OS_TLS_LOCK_MAX →
  ∃ s1, OS_TLS_Init s0 = Some (s1, OS_ERR_NONE)
      ∧ client_run ops s1 [] ≠ Undefined
      ∧ ∀ s held, client_run ops s1 [] = Done s held →
          ∃ free, free_list s = Some free
                ∧ free ++ held ≡ₚ seq 0 OS_TLS_LOCK_MAX
                ∧ (length free + length held = OS_TLS_LOCK_MAX)%nat
                ∧ (free = [] →
                   ∀ err, OS_TLS_LockCreate s true err = Some (s, Some None))
                ∧ (∀ p free', free = p :: free' →
                     ∃ s', OS_TLS_LockCreate s true OS_ERR_NONE
                             = Some (s', Some (Some p))
                         ∧ free_list s' = Some free')
                ∧ (∀ err, err ≠ OS_ERR_NONE →
                     ∃ s', OS_TLS_LockCreate s true err = Some (s', Some None)
                         ∧ free_list s' = Some free)
                ∧ ∀ p err, p ∈ held →
                    ∃ s', OS_TLS_LockDel s (Some p) err = Some s'
                        ∧ free_list s' = Some (p :: free)
                        ∧ (∃ s'', OS_TLS_LockCreate s' true OS_ERR_NONE
                                    = Some (s'', Some (Some p))
                                  ∧ free_list s'' = Some free)
                        ∧ (∀ err', err' ≠ OS_ERR_NONE →
                             ∃ s'', OS_TLS_LockCreate s' true err'
                                      = Some (s'', Some None)
                                  ∧ free_list s'' = Some (p :: free)).
Proof.
  intros Hlen0. destruct (Init_result s0) as (t & HInit & _).
  eexists. split; [exact HInit|].
  pose proof (pool_inv_Init _ _ _ Hlen0 HInit) as Hinv1.
  destruct (client_run_inv ops _ _ Hinv1) as [Hdef Hkeep].
  split; [exact Hdef|]. intros s held Hrun.
  pose proof (Hkeep s held Hrun) as Hinv.
  destruct Hinv as (Hlen & free & Hc & Hperm).
  assert (length free + length held = OS_TLS_LOCK_MAX)%nat as Hcount.
  { rewrite <- length_app, Hperm. apply length_seq. }
  destruct (LockCreate_on_chain s free Hc) as (Hempty & Hok & Hfail); [lia|].
  exists free. split_and!; try done.
  - unfold free_list. apply chain_walk; [done|lia].
  - intros p err Hin.
    destruct (pool_inv_held s held p (Hkeep s held Hrun) Hin) as [Hp Hfresh].
    rewrite LockDel_push by done. eexists. split; [reflexivity|].
    assert (chain (<[p := mkLock (OS_TLS_LockPoolListPtr s)]> (OS_TLS_LockPoolTbl s))
                  (Some p) (p :: free)) as Hc2.
    { split; [done|]. exists (OS_TLS_LockPoolListPtr s). split.
      - by apply list_lookup_insert_eq.
      - apply chain_insert; [by apply Hfresh|done]. }
    assert (length (p :: free) ≤ length (OS_TLS_LockPoolTbl s))%nat as Hlen2.
    { cbn. apply list_elem_of_split in Hin as (l1 & l2 & ->).
      rewrite length_app in Hcount. cbn in Hcount. lia. }
    destruct (LockCreate_on_chain
                (set_LockPoolListPtr (Some p)
                   (set_NextPtr p (OS_TLS_LockPoolListPtr s) (call (OSMutexDel p) s)))
                (p :: free)) as (_ & Hok2 & Hfail2);
      [exact Hc2|cbn; by rewrite length_insert|].
    split_and!.
    + unfold free_list. cbn. apply chain_walk; [done|by rewrite length_insert].
    + by apply Hok2.
    + exact Hfail2.
Qed.

End init.

End allocator.

(** ** Further properties of the value store *)

(** What a successful [OS_TLS_SetValue] has found and done. *)
Lemma SetValue_NONE_inv (s s' : OS) (p_tcb : option nat) (id : OS_TLS_ID)
    (value : OS_TLS) :
  OS_TLS_SetValue s p_tcb id value = Some (s', OS_ERR_NONE) →
  ∃ p tcb,
    OS_CFG_ARG_CHK_EN && (OS_TLS_NextAvailID s <=? id) = false
    ∧ resolve_tcb s p_tcb = Some p
    ∧ TCBs s !! p = Some tcb
    ∧ TLS_enabled tcb = true
    ∧ (N.to_nat id < length (TLS_Tbl tcb))%nat
    ∧ s' = set_TCBs (<[p := mkTCB (Opt tcb) (<[N.to_nat id := value]> (TLS_Tbl tcb))]>
                       (TCBs s)) s.
Proof.
  unfold OS_TLS_SetValue.
  destruct (OS_CFG_ARG_CHK_EN && (OS_TLS_NextAvailID s <=? id)); [done|].
  destruct (resolve_tcb s p_tcb) as [p|]; [|done].
  destruct (TCBs s !! p) as [tcb|] eqn:Htcb; [|done]. cbn.
  destruct (TLS_enabled tcb) eqn:Hen; [|done].
  destruct (TLS_Tbl tcb !! N.to_nat id) as [old|] eqn:Hold; [|done]. cbn.
  intros [= <-]. exists p, tcb. split_and!; try done.
  by apply lookup_lt_is_Some_1.
Qed.

Lemma SetValue_succeeds (s : OS) (p_tcb : option nat) (p : nat) (tcb : OS_TCB)
    (id : OS_TLS_ID) (value : OS_TLS) :
  OS_CFG_ARG_CHK_EN && (OS_TLS_NextAvailID s <=? id) = false →
  resolve_tcb s p_tcb = Some p →
  TCBs s !! p = Some tcb →
  TLS_enabled tcb = true →
  (N.to_nat id < length (TLS_Tbl tcb))%nat →
  OS_TLS_SetValue s p_tcb id value =
    Some (set_TCBs (<[p := mkTCB (Opt tcb) (<[N.to_nat id := value]> (TLS_Tbl tcb))]>
                      (TCBs s)) s,
          OS_ERR_NONE).
Proof.
  intros Hchk Hres Htcb Hen Hlen. unfold OS_TLS_SetValue.
  rewrite Hchk, Hres. cbn. rewrite Htcb. cbn. rewrite Hen.
  destruct (lookup_lt_is_Some_2 _ _ Hlen) as [old ->]. reflexivity.
Qed.

Lemma SetValue_error_keeps_state (s s' : OS) (p_tcb : option nat)
    (id : OS_TLS_ID) (value : OS_TLS) (err : OS_ERR) :
  OS_TLS_SetValue s p_tcb id value = Some (s', err) →
  err ≠ OS_ERR_NONE → s' = s.
Proof.
  unfold OS_TLS_SetValue.
  destruct (OS_CFG_ARG_CHK_EN && (OS_TLS_NextAvailID s <=? id));
    [by intros [= <- <-]|].
  destruct (resolve_tcb s p_tcb) as [p|]; [|by intros [= <- <-]].
  destruct (TCBs s !! p) as [tcb|]; [|done]. cbn.
  destruct (TLS_enabled tcb); [|by intros [= <- <-]].
  destruct (TLS_Tbl tcb !! N.to_nat id) as [old|]; [|done]. cbn.
  by intros [= <- <-].
Qed.

(** X1.  [OS_TLS_GetValue] and [OS_TLS_SetValue] make the same tests in the
    same order: for the same task reference and [id] they report the same
    error code, and are undefined together.  On an error the one returns 0
    and the other changes nothing. *)
Theorem Get_Set_same_error (s : OS) (p_tcb : option nat) (id : OS_TLS_ID)
    (value : OS_TLS) :
  snd <$> OS_TLS_GetValue s p_tcb id = snd <$> OS_TLS_SetValue s p_tcb id value
  ∧ (∀ v err, OS_TLS_GetValue s p_tcb id = Some (v, err) →
              err ≠ OS_ERR_NONE → v = 0)
  ∧ (∀ s' err, OS_TLS_SetValue s p_tcb id value = Some (s', err) →
               err ≠ OS_ERR_NONE → s' = s).
Proof.
  unfold OS_TLS_GetValue, OS_TLS_SetValue.
  destruct (OS_CFG_ARG_CHK_EN && (OS_TLS_NextAvailID s <=? id)).
  { split_and!; [done|by intros v err [= <- <-]|by intros s' err [= <- <-]]. }
  destruct (resolve_tcb s p_tcb) as [p|].
  2: { split_and!; [done|by intros v err [= <- <-]|by intros s' err [= <- <-]]. }
  destruct (TCBs s !! p) as [tcb|]; [|done]. cbn.
  destruct (TLS_enabled tcb).
  2: { split_and!; [done|by intros v err [= <- <-]|by intros s' err [= <- <-]]. }
  destruct (TLS_Tbl tcb !! N.to_nat id) as [old|]; [|done]. cbn.
  split_and!; [done|by intros v err [= <- <-]|by intros s' err [= <- <-]].
Qed.

(** X2.  A call of [OS_TLS_SetValue] that returns changes no variable of the
    file other than the TCB store, and no register other than the one it
    was asked to set: every other register of the same task and every
    register of every other task reads as before. *)
Theorem SetValue_frame (s s' : OS) (p_tcb : option nat) (id : OS_TLS_ID)
    (value : OS_TLS) (err : OS_ERR) :
  OS_TLS_SetValue s p_tcb id value = Some (s', err) →
  s' = set_TCBs (TCBs s') s
  ∧ ∀ q id', resolve_tcb s p_tcb ≠ Some q ∨ id' ≠ id →
             OS_TLS_GetValue s' (Some q) id' = OS_TLS_GetValue s (Some q) id'.
Proof.
  intros HSet. destruct (decide (err = OS_ERR_NONE)) as [->|Hne].
  - apply SetValue_NONE_inv in HSet as (p & tcb & _ & Hres & Htcb & Hen & Hlen & ->).
    split; [reflexivity|]. intros q id' Hother.
    unfold OS_TLS_GetValue. cbn [OS_TLS_NextAvailID set_TCBs TCBs resolve_tcb].
    destruct (OS_CFG_ARG_CHK_EN && (OS_TLS_NextAvailID s <=? id')); [done|].
    destruct (decide (p = q)) as [->|Hpq].
    + rewrite lookup_insert_eq, Htcb. cbn.
      change (TLS_enabled (mkTCB (Opt tcb) _)) with (TLS_enabled tcb).
      rewrite Hen. rewrite list_lookup_insert_ne; [done|].
      destruct Hother as [Hq|Hid]; [by rewrite Hres in Hq|]. lia.
    + by rewrite lookup_insert_ne.
  - rewrite (SetValue_error_keeps_state s s' p_tcb id value err HSet Hne).
    split; [by destruct s|done].
Qed.

(** X3.  Two calls of [OS_TLS_SetValue] for the same register leave the state
    that the second call alone would leave. *)
Theorem SetValue_last_write_wins (s s1 : OS) (p_tcb : option nat)
    (id : OS_TLS_ID) (v1 v2 : OS_TLS) :
  OS_TLS_SetValue s p_tcb id v1 = Some (s1, OS_ERR_NONE) →
  OS_TLS_SetValue s1 p_tcb id v2 = OS_TLS_SetValue s p_tcb id v2.
Proof.
  intros HSet.
  apply SetValue_NONE_inv in HSet as (p & tcb & Hchk & Hres & Htcb & Hen & Hlen & ->).
  rewrite (SetValue_succeeds s p_tcb p tcb id v2 Hchk Hres Htcb Hen Hlen).
  rewrite (SetValue_succeeds _ p_tcb p
             (mkTCB (Opt tcb) (<[N.to_nat id := v1]> (TLS_Tbl tcb))) id v2);
    [|done|by destruct p_tcb|apply lookup_insert_eq|done
     |cbn; by rewrite length_insert].
  cbn. by rewrite insert_insert_eq, list_insert_insert_eq.
Qed.

(** X4.  Writing back the value that [OS_TLS_GetValue] has just returned
    changes nothing. *)
Theorem SetValue_of_GetValue (s : OS) (p_tcb : option nat) (id : OS_TLS_ID)
    (value : OS_TLS) :
  OS_TLS_GetValue s p_tcb id = Some (value, OS_ERR_NONE) →
  OS_TLS_SetValue s p_tcb id value = Some (s, OS_ERR_NONE).
Proof.
  unfold OS_TLS_GetValue, OS_TLS_SetValue.
  destruct (OS_CFG_ARG_CHK_EN && (OS_TLS_NextAvailID s <=? id)); [done|].
  destruct (resolve_tcb s p_tcb) as [p|]; [|done].
  destruct (TCBs s !! p) as [tcb|] eqn:Htcb; [|done]. cbn.
  destruct (TLS_enabled tcb); [|done].
  destruct (TLS_Tbl tcb !! N.to_nat id) as [old|] eqn:Hold; [|done]. cbn.
  intros [= ->]. rewrite list_insert_id by done.
  replace (mkTCB (Opt tcb) (TLS_Tbl tcb)) with tcb by (by destruct tcb).
  rewrite insert_id by done. by destruct s.
Qed.

(** ** Properties of the task hooks *)

Lemma TaskCreate_stores (s : OS) (p : nat) (tcb : OS_TCB) (p_tls : OS_TLS) :
  TCBs s !! p = Some tcb →
  TLS_enabled tcb = true →
  (N.to_nat (OS_TLS_LibID s) < length (TLS_Tbl tcb))%nat →
  OS_TLS_TaskCreate s p p_tls =
    Some (set_TCBs
            (<[p := mkTCB (Opt tcb)
                          (<[N.to_nat (OS_TLS_LibID s) := p_tls]> (TLS_Tbl tcb))]>
               (TCBs s))
            (call (iar_dlib_perthread_initialize p_tls)
                  (call iar_dlib_perthread_allocate s))).
Proof.
  intros Htcb Hen Hlen. unfold OS_TLS_TaskCreate. rewrite Htcb. cbn. rewrite Hen.
  destruct (lookup_lt_is_Some_2 _ _ Hlen) as [old ->]. reflexivity.
Qed.

Lemma TaskDel_after_TaskCreate (s : OS) (p : nat) (tcb : OS_TCB) (p_tls : OS_TLS) :
  TCBs s !! p = Some tcb →
  TLS_enabled tcb = true →
  (N.to_nat (OS_TLS_LibID s) < length (TLS_Tbl tcb))%nat →
  ∃ s1,
    OS_TLS_TaskCreate s p p_tls = Some s1
    ∧ OS_TLS_TaskDel s1 p =
        Some (mkOS (OS_TLS_NextAvailID s) (OS_TLS_LibID s) (OS_TLS_LockPoolTbl s)
                (OS_TLS_LockPoolListPtr s) (OSRunning s) (OSTCBCurPtr s)
                (OSTCBHighRdyPtr s)
                (<[p := mkTCB (Opt tcb)
                              (<[N.to_nat (OS_TLS_LibID s) := 0]> (TLS_Tbl tcb))]>
                   (TCBs s))
                ([iar_dlib_perthread_deallocate p_tls; iar_dlib_perthread_destroy;
                  iar_dlib_perthread_initialize p_tls; iar_dlib_perthread_allocate]
                 ++ calls s)).
Proof.
  intros Htcb Hen Hlen.
  rewrite (TaskCreate_stores s p tcb p_tls Htcb Hen Hlen).
  eexists. split; [reflexivity|].
  unfold OS_TLS_TaskDel. cbn [TCBs set_TCBs OS_TLS_LibID call].
  rewrite lookup_insert_eq. cbn.
  change (TLS_enabled (mkTCB (Opt tcb) _)) with (TLS_enabled tcb). rewrite Hen.
  rewrite list_lookup_insert_eq by done. cbn.
  unfold set_TCBs, call. cbn.
  by rewrite insert_insert_eq, list_insert_insert_eq.
Qed.

(** X5.  The two hooks of a task with TLS, one after the other: both return;
    the segment handed to [__iar_dlib_perthread_deallocate] is the one
    [__iar_dlib_perthread_allocate] returned at creation; the library slot
    of the task ends as 0, its other registers and the other tasks are
    untouched, and so are the other variables of the file. *)
Theorem TaskCreate_then_TaskDel (s : OS) (p : nat) (tcb : OS_TCB)
    (p_tls : OS_TLS) :
  TCBs s !! p = Some tcb →
  TLS_enabled tcb = true →
  (N.to_nat (OS_TLS_LibID s) < length (TLS_Tbl tcb))%nat →
  ∃ s1 s2,
    OS_TLS_TaskCreate s p p_tls = Some s1
    ∧ OS_TLS_TaskDel s1 p = Some s2
    ∧ calls s2 =
        [iar_dlib_perthread_deallocate p_tls; iar_dlib_perthread_destroy;
         iar_dlib_perthread_initialize p_tls; iar_dlib_perthread_allocate]
        ++ calls s
    ∧ TCBs s2 =
        <[p := mkTCB (Opt tcb) (<[N.to_nat (OS_TLS_LibID s) := 0]> (TLS_Tbl tcb))]>
          (TCBs s)
    ∧ (OS_TLS_NextAvailID s2, OS_TLS_LibID s2, pool s2, OSRunning s2,
       OSTCBCurPtr s2, OSTCBHighRdyPtr s2)
      = (OS_TLS_NextAvailID s, OS_TLS_LibID s, pool s, OSRunning s,
         OSTCBCurPtr s, OSTCBHighRdyPtr s).
Proof.
  intros Htcb Hen Hlen.
  destruct (TaskDel_after_TaskCreate s p tcb p_tls Htcb Hen Hlen) as (s1 & HC & HD).
  eexists s1, _. split; [exact HC|]. split; [exact HD|]. done.
Qed.

(** X6.  A task created with [OS_OPT_TASK_NO_TLS] is left alone: the hooks
    return without calling the runtime and without changing anything, and,
    for an [id] that passes the argument check, [OS_TLS_GetValue] returns 0
    with [OS_ERR_TLS_NOT_EN] and [OS_TLS_SetValue] reports
    [OS_ERR_TLS_NOT_EN] and changes nothing. *)
Theorem task_without_TLS (s : OS) (p : nat) (tcb : OS_TCB) (p_tls : OS_TLS)
    (id : OS_TLS_ID) (value : OS_TLS) :
  TCBs s !! p = Some tcb →
  TLS_enabled tcb = false →
  OS_TLS_TaskCreate s p p_tls = Some s
  ∧ OS_TLS_TaskDel s p = Some s
  ∧ (OS_CFG_ARG_CHK_EN && (OS_TLS_NextAvailID s <=? id) = false →
     OS_TLS_GetValue s (Some p) id = Some (0, OS_ERR_TLS_NOT_EN)
     ∧ OS_TLS_SetValue s (Some p) id value = Some (s, OS_ERR_TLS_NOT_EN)).
Proof.
  intros Htcb Hen.
  unfold OS_TLS_TaskCreate, OS_TLS_TaskDel, OS_TLS_GetValue, OS_TLS_SetValue.
  cbn [resolve_tcb]. rewrite Htcb. cbn. rewrite Hen.
  split_and!; [done|done|]. by intros ->.
Qed.

Lemma perthread_access_running (s : OS) (symbp : N) (p : nat) (tcb : OS_TCB)
    (seg : N) :
  OSRunning s = OS_STATE_OS_RUNNING →
  OSTCBCurPtr s = Some p →
  TCBs s !! p = Some tcb →
  TLS_Tbl tcb !! N.to_nat (OS_TLS_LibID s) = Some seg →
  __iar_dlib_perthread_access s symbp =
    Some (to_uintptr (seg + IAR_DLIB_PERTHREAD_SYMBOL_OFFSET symbp)).
Proof.
  intros Hrun Hcur Htcb Hseg. unfold __iar_dlib_perthread_access.
  rewrite bool_decide_eq_false_2 by (by intros []).
  rewrite Hcur. cbn. rewrite Htcb. cbn. rewrite Hseg. cbn.
  by rewrite to_uintptr_add.
Qed.

(** X7.  The resolver follows the hooks: while the kernel runs, once
    [OS_TLS_TaskCreate] has run for the current task the address is taken
    in the segment handed to the hook, and once [OS_TLS_TaskDel] has run for
    it the base is the null pointer, so the address is the bare offset. *)
Theorem perthread_access_after_hooks (s : OS) (p : nat) (tcb : OS_TCB)
    (p_tls : OS_TLS) (symbp : N) :
  OSRunning s = OS_STATE_OS_RUNNING →
  OSTCBCurPtr s = Some p →
  TCBs s !! p = Some tcb →
  TLS_enabled tcb = true →
  (N.to_nat (OS_TLS_LibID s) < length (TLS_Tbl tcb))%nat →
  ∃ s1 s2,
    OS_TLS_TaskCreate s p p_tls = Some s1
    ∧ __iar_dlib_perthread_access s1 symbp =
        Some (to_uintptr (p_tls + IAR_DLIB_PERTHREAD_SYMBOL_OFFSET symbp))
    ∧ OS_TLS_TaskDel s1 p = Some s2
    ∧ __iar_dlib_perthread_access s2 symbp =
        Some (to_uintptr (IAR_DLIB_PERTHREAD_SYMBOL_OFFSET symbp)).
Proof.
  intros Hrun Hcur Htcb Hen Hlen.
  destruct (TaskDel_after_TaskCreate s p tcb p_tls Htcb Hen Hlen) as (s1 & HC & HD).
  eexists s1, _. split; [exact HC|].
  rewrite (TaskCreate_stores s p tcb p_tls Htcb Hen Hlen) in HC.
  injection HC as <-. split.
  - apply (perthread_access_running _ symbp p
             (mkTCB (Opt tcb) (<[N.to_nat (OS_TLS_LibID s) := p_tls]> (TLS_Tbl tcb))));
      [done|done|apply lookup_insert_eq|by apply list_lookup_insert_eq].
  - split; [exact HD|].
    change (to_uintptr (IAR_DLIB_PERTHREAD_SYMBOL_OFFSET symbp))
      with (to_uintptr (0 + IAR_DLIB_PERTHREAD_SYMBOL_OFFSET symbp)).
    apply (perthread_access_running _ symbp p
             (mkTCB (Opt tcb) (<[N.to_nat (OS_TLS_LibID s) := 0]> (TLS_Tbl tcb))));
      [done|done|apply lookup_insert_eq|by apply list_lookup_insert_eq].
Qed.

(** ** Properties of the services as a whole *)

Lemma tls_inv_same (s s' : OS) :
  OS_TLS_NextAvailID s' = OS_TLS_NextAvailID s →
  OS_TLS_LibID s' = OS_TLS_LibID s →
  TCBs s' = TCBs s →
  tls_inv s → tls_inv s'.
Proof. unfold tls_inv. by intros -> -> ->. Qed.

(** Storing into a register of a task keeps the size of its table. *)
Lemma tls_inv_store (s : OS) (p : nat) (tcb : OS_TCB) (i : nat) (v : OS_TLS)
    (s' : OS) :
  OS_TLS_NextAvailID s' = OS_TLS_NextAvailID s →
  OS_TLS_LibID s' = OS_TLS_LibID s →
  TCBs s' = <[p := mkTCB (Opt tcb) (<[i := v]> (TLS_Tbl tcb))]> (TCBs s) →
  TCBs s !! p = Some tcb →
  tls_inv s → tls_inv s'.
Proof.
  intros Hn Hl Ht Htcb (Hlib & Hcnt & Hlen). unfold tls_inv.
  rewrite Hn, Hl, Ht. split_and!; [done|done|].
  intros q tcb' Hq. apply lookup_insert_Some in Hq as [[<- <-]|[_ Hq]].
  - cbn. rewrite length_insert. by apply (Hlen p).
  - by apply (Hlen q).
Qed.

Lemma LockCreate_keeps_tls (s s' : OS) (p_lock : bool) (err : OS_ERR)
    (h : option (option nat)) :
  OS_TLS_LockCreate s p_lock err = Some (s', h) →
  OS_TLS_NextAvailID s' = OS_TLS_NextAvailID s
  ∧ OS_TLS_LibID s' = OS_TLS_LibID s
  ∧ TCBs s' = TCBs s.
Proof.
  unfold OS_TLS_LockCreate. destruct p_lock; cbn; [|by intros [= <- <-]].
  destruct (OS_TLS_LockPoolListPtr s) as [p|]; [|by intros [= <- <-]].
  destruct (OS_TLS_LockPoolTbl s !! p) as [lock|]; [|done]. cbn.
  destruct (bool_decide (err ≠ OS_ERR_NONE)); by intros [= <- <-].
Qed.

Lemma LockDel_keeps_tls (s s' : OS) (p_lock : option nat) (err : OS_ERR) :
  OS_TLS_LockDel s p_lock err = Some s' →
  OS_TLS_NextAvailID s' = OS_TLS_NextAvailID s
  ∧ OS_TLS_LibID s' = OS_TLS_LibID s
  ∧ TCBs s' = TCBs s.
Proof.
  unfold OS_TLS_LockDel. destruct p_lock as [p|]; [|by intros [= <-]]. cbn.
  destruct (OS_TLS_LockPoolTbl s !! p) as [lock|]; [|done]. cbn.
  by intros [= <-].
Qed.

Lemma tls_step_inv (s s' : OS) (c : tls_call) :
  OS_CFG_TLS_TBL_SIZE < 2 ^ CPU_DATA_BITS →
  tls_inv s →
  tls_step s c = Some s' →
  tls_inv s'
  ∧ OS_TLS_LibID s' = OS_TLS_LibID s
  ∧ OS_TLS_NextAvailID s ≤ OS_TLS_NextAvailID s'.
Proof.
  intros Hfits Hinv Hstep. pose proof Hinv as (Hlib & Hcnt & Hlen).
  destruct c as [|p_tcb id|p_tcb id value|id pd|p p_tls|p| |b err|h err|h|h];
    cbn in Hstep.
  - injection Hstep as <-.
    destruct (N.lt_ge_cases (OS_TLS_NextAvailID s) OS_CFG_TLS_TBL_SIZE) as [Hlt|Hge].
    + rewrite (GetID_avail Hfits s Hlt). cbn. unfold tls_inv. cbn.
      split_and!; try done; lia.
    + rewrite (GetID_exhausted Hfits s Hge). cbn. split_and!; try done; lia.
  - destruct (OS_TLS_GetValue s p_tcb id); [|done]. injection Hstep as <-.
    split_and!; try done; lia.
  - destruct (OS_TLS_SetValue s p_tcb id value) as [[s1 err]|] eqn:HSet; [|done].
    injection Hstep as <-. destruct (decide (err = OS_ERR_NONE)) as [->|Hne].
    + apply SetValue_NONE_inv in HSet as (p & tcb & _ & _ & Htcb & _ & _ & ->).
      split_and!; [|done|cbn; lia].
      by apply (tls_inv_store s p tcb (N.to_nat id) value).
    + rewrite (SetValue_error_keeps_state s s1 p_tcb id value err HSet Hne).
      split_and!; try done; lia.
  - injection Hstep as <-. split_and!; try done; lia.
  - unfold OS_TLS_TaskCreate in Hstep.
    destruct (TCBs s !! p) as [tcb|] eqn:Htcb; [|done]. cbn in Hstep.
    destruct (TLS_enabled tcb).
    + destruct (TLS_Tbl tcb !! N.to_nat (OS_TLS_LibID s)); [|done].
      injection Hstep as <-. split_and!; [|done|cbn; lia].
      by apply (tls_inv_store s p tcb (N.to_nat (OS_TLS_LibID s)) p_tls).
    + injection Hstep as <-. split_and!; try done; lia.
  - unfold OS_TLS_TaskDel in Hstep.
    destruct (TCBs s !! p) as [tcb|] eqn:Htcb; [|done]. cbn in Hstep.
    destruct (TLS_enabled tcb).
    + destruct (TLS_Tbl tcb !! N.to_nat (OS_TLS_LibID s)); [|done].
      injection Hstep as <-. split_and!; [|done|cbn; lia].
      by apply (tls_inv_store s p tcb (N.to_nat (OS_TLS_LibID s)) 0).
    + injection Hstep as <-. split_and!; try done; lia.
  - unfold OS_TLS_TaskSw in Hstep.
    destruct (OSTCBHighRdyPtr s) as [p|]; [|done]. cbn in Hstep.
    destruct (TCBs s !! p) as [tcb|]; [|done]. cbn in Hstep.
    destruct (TLS_enabled tcb); injection Hstep as <-; split_and!; try done; lia.
  - destruct (OS_TLS_LockCreate s b err) as [[s1 out]|] eqn:HC; [|done].
    injection Hstep as <-.
    apply LockCreate_keeps_tls in HC as (Hn & Hl & Ht).
    split_and!; [by apply (tls_inv_same s)|done|lia].
  - apply LockDel_keeps_tls in Hstep as (Hn & Hl & Ht).
    split_and!; [by apply (tls_inv_same s)|done|lia].
  - injection Hstep as <-. unfold OS_TLS_LockAcquire.
    destruct h; [destruct (bool_decide _)|]; split_and!; try done; lia.
  - injection Hstep as <-. unfold OS_TLS_LockRelease.
    destruct h; [destruct (bool_decide _)|]; split_and!; try done; lia.
Qed.

Lemma tls_run_inv (cs : list tls_call) : ∀ s s' : OS,
  OS_CFG_TLS_TBL_SIZE < 2 ^ CPU_DATA_BITS →
  tls_inv s →
  tls_run cs s = Some s' →
  tls_inv s'
  ∧ OS_TLS_LibID s' = OS_TLS_LibID s
  ∧ OS_TLS_NextAvailID s ≤ OS_TLS_NextAvailID s'.
Proof.
  induction cs as [|c cs IH]; intros s s' Hfits Hinv Hrun.
  - injection Hrun as <-. split_and!; try done; lia.
  - cbn in Hrun. destruct (tls_step s c) as [s1|] eqn:Hstep; [|done].
    cbn in Hrun.
    destruct (tls_step_inv s s1 c Hfits Hinv Hstep) as (Hinv1 & Hl1 & Hn1).
    destruct (IH s1 s' Hfits Hinv1 Hrun) as (Hinv' & Hl' & Hn').
    split_and!; [done|congruence|lia].
Qed.

(** X8.  Whatever functions of the file other than [OS_TLS_Init] are
    called, in whatever order and with whatever arguments, a state that
    satisfies [tls_inv] (the library slot is issued, the counter is within
    the table size, every [TLS_Tbl] has [OS_CFG_TLS_TBL_SIZE] entries) is
    followed, when the calls are defined, by a state that satisfies it too;
    [OS_TLS_LibID] is never changed and [OS_TLS_NextAvailID] never
    decreases. *)
Theorem tls_inv_kept (cs : list tls_call) (s s' : OS) :
  OS_CFG_TLS_TBL_SIZE < 2 ^ CPU_DATA_BITS →
  tls_inv s →
  tls_run cs s = Some s' →
  tls_inv s'
  ∧ OS_TLS_LibID s' = OS_TLS_LibID s
  ∧ OS_TLS_NextAvailID s ≤ OS_TLS_NextAvailID s'.
Proof. apply tls_run_inv. Qed.

(** X9.  [OS_TLS_Init] establishes the invariant [tls_inv] when every
    [TLS_Tbl] has its declared size, and from then on, whatever is called:
    the invariant holds, the library slot stays ID 0, and ID 0 is never
    returned by [OS_TLS_GetID] again, as an ID or as the exhaustion value. *)
Theorem library_slot_stays_reserved (s0 : OS) (cs : list tls_call) :
  OS_CFG_TLS_TBL_SIZE < 2 ^ CPU_DATA_BITS →
  0 < OS_CFG_TLS_TBL_SIZE →
  (0 < OS_TLS_LOCK_MAX)%nat →
  (OS_TLS_LOCK_MAX ≤ 2 ^ 16)%nat →
  (∀ p tcb, TCBs s0 !! p = Some tcb →
            length (TLS_Tbl tcb) = N.to_nat OS_CFG_TLS_TBL_SIZE) →
  ∃ s1, OS_TLS_Init s0 = Some (s1, OS_ERR_NONE)
      ∧ tls_inv s1
      ∧ ∀ s', tls_run cs s1 = Some s' →
              tls_inv s'
              ∧ OS_TLS_LibID s' = 0
              ∧ (OS_TLS_GetID s').1.2 ≠ 0.
Proof.
  intros Hfits Hpos Hlpos Hlfits Hlen0.
  destruct (Init_result Hfits Hpos Hlpos Hlfits s0) as (t & HInit & _).
  eexists. split; [exact HInit|].
  assert (tls_inv (mkOS 1 0 t (Some 0%nat) (OSRunning s0) (OSTCBCurPtr s0)
                        (OSTCBHighRdyPtr s0) (TCBs s0) (calls s0))) as Hinv1.
  { unfold tls_inv. cbn. split_and!; [lia|lia|done]. }
  split; [exact Hinv1|]. intros s' Hrun.
  destruct (tls_run_inv cs _ s' Hfits Hinv1 Hrun) as (Hinv' & Hl' & Hn').
  cbn in Hl', Hn'. split_and!; [done|done|].
  destruct (N.lt_ge_cases (OS_TLS_NextAvailID s') OS_CFG_TLS_TBL_SIZE) as [Hlt|Hge].
  - rewrite (GetID_avail Hfits s' Hlt). cbn. lia.
  - rewrite (GetID_exhausted Hfits s' Hge). cbn. lia.
Qed.

(** X10.  With argument checking compiled in, in a state that satisfies
    [tls_inv], no access to a register leaves the table: for every [id]
    whatsoever, [OS_TLS_GetValue] and [OS_TLS_SetValue] are defined as soon
    as the task they are given exists, and so are the two task hooks. *)
Theorem checked_access_is_defined (s : OS) (p_tcb : option nat)
    (id : OS_TLS_ID) (value : OS_TLS) :
  tls_inv s →
  OS_CFG_ARG_CHK_EN = true →
  (∀ p, resolve_tcb s p_tcb = Some p → is_Some (TCBs s !! p)) →
  is_Some (OS_TLS_GetValue s p_tcb id)
  ∧ is_Some (OS_TLS_SetValue s p_tcb id value)
  ∧ ∀ q p_tls, is_Some (TCBs s !! q) →
               is_Some (OS_TLS_TaskCreate s q p_tls)
               ∧ is_Some (OS_TLS_TaskDel s q).
Proof.
  intros (Hlib & Hcnt & Hlen) Hchk Hex. split_and!.
  - unfold OS_TLS_GetValue. rewrite Hchk. cbn.
    destruct (N.leb_spec (OS_TLS_NextAvailID s) id); [done|].
    destruct (resolve_tcb s p_tcb) as [p|]; [|done].
    destruct (Hex p eq_refl) as [tcb Htcb]. rewrite Htcb. cbn.
    destruct (TLS_enabled tcb); [|done].
    destruct (lookup_lt_is_Some_2 (TLS_Tbl tcb) (N.to_nat id)) as [v ->]; [|done].
    rewrite (Hlen p tcb Htcb). lia.
  - unfold OS_TLS_SetValue. rewrite Hchk. cbn.
    destruct (N.leb_spec (OS_TLS_NextAvailID s) id); [done|].
    destruct (resolve_tcb s p_tcb) as [p|]; [|done].
    destruct (Hex p eq_refl) as [tcb Htcb]. rewrite Htcb. cbn.
    destruct (TLS_enabled tcb); [|done].
    destruct (lookup_lt_is_Some_2 (TLS_Tbl tcb) (N.to_nat id)) as [v ->]; [|done].
    rewrite (Hlen p tcb Htcb). lia.
  - intros q p_tls [tcb Htcb].
    assert (is_Some (TLS_Tbl tcb !! N.to_nat (OS_TLS_LibID s))) as [v Hv].
    { apply lookup_lt_is_Some_2. rewrite (Hlen q tcb Htcb). lia. }
    unfold OS_TLS_TaskCreate, OS_TLS_TaskDel. rewrite Htcb. cbn.
    destruct (TLS_enabled tcb); [|done]. cbn. by rewrite Hv.
Qed.

(** X11.  Without argument checking nothing stops an [id] beyond the table: for
    a task with TLS, reading or writing register [id] with
    [id >= OS_CFG_TLS_TBL_SIZE] is an access outside [TLS_Tbl]. *)
Theorem unchecked_access_out_of_table (s : OS) (p_tcb : option nat) (p : nat)
    (tcb : OS_TCB) (id : OS_TLS_ID) (value : OS_TLS) :
  OS_CFG_ARG_CHK_EN = false →
  resolve_tcb s p_tcb = Some p →
  TCBs s !! p = Some tcb →
  TLS_enabled tcb = true →
  length (TLS_Tbl tcb) = N.to_nat OS_CFG_TLS_TBL_SIZE →
  OS_CFG_TLS_TBL_SIZE ≤ id →
  OS_TLS_GetValue s p_tcb id = None
  ∧ OS_TLS_SetValue s p_tcb id value = None.
Proof.
  intros Hchk Hres Htcb Hen Hlen Hid.
  assert (TLS_Tbl tcb !! N.to_nat id = None) as Hnone
    by (apply lookup_ge_None; lia).
  unfold OS_TLS_GetValue, OS_TLS_SetValue.
  rewrite Hchk, Hres. cbn. rewrite Htcb. cbn. by rewrite Hen, Hnone.
Qed.

(** ** Further properties of the slot allocator *)

Lemma GetID_n_app (a b : nat) : ∀ s : OS,
  GetID_n (a + b) s =
    ((GetID_n b (GetID_n a s).1).1, (GetID_n a s).2 ++ (GetID_n b (GetID_n a s).1).2).
Proof.
  induction a as [|a IH]; intros s.
  - cbn. by destruct (GetID_n b s).
  - cbn [Nat.add GetID_n]. destruct (OS_TLS_GetID s) as [[s1 id] err].
    rewrite IH. destruct (GetID_n a s1) as [s2 rs]. cbn.
    by destruct (GetID_n b s2).
Qed.

(** X12.  From any state whose counter is within the table size, [n] calls of
    [OS_TLS_GetID] first hand out, in order, the IDs from the counter up to
    [OS_CFG_TLS_TBL_SIZE - 1], as many as are left and asked for, and from
    then on report [OS_ERR_TLS_NO_MORE_AVAIL]: a success never follows a
    failure, and no ID is returned twice. *)
Theorem GetID_n_successes_then_failures (s : OS) (n : nat) :
  OS_CFG_TLS_TBL_SIZE < 2 ^ CPU_DATA_BITS →
  OS_TLS_NextAvailID s ≤ OS_CFG_TLS_TBL_SIZE →
  let k := (n `min` N.to_nat (OS_CFG_TLS_TBL_SIZE - OS_TLS_NextAvailID s))%nat in
  (GetID_n n s).2 =
    ((λ i : nat, (OS_TLS_NextAvailID s + N.of_nat i, OS_ERR_NONE)) <$> seq 0 k)
    ++ replicate (n - k) (OS_CFG_TLS_TBL_SIZE, OS_ERR_TLS_NO_MORE_AVAIL)
  ∧ OS_TLS_NextAvailID (GetID_n n s).1 = OS_TLS_NextAvailID s + N.of_nat k.
Proof.
  intros Hfits Hcnt k.
  assert (GetID_n n s =
            (set_NextAvailID (OS_TLS_NextAvailID s + N.of_nat k) s,
             ((λ i : nat, (OS_TLS_NextAvailID s + N.of_nat i, OS_ERR_NONE)) <$> seq 0 k)
             ++ replicate (n - k) (OS_CFG_TLS_TBL_SIZE, OS_ERR_TLS_NO_MORE_AVAIL)))
    as ->; [|done].
  transitivity (GetID_n (k + (n - k)) s); [f_equal; lia|].
  rewrite GetID_n_app.
  rewrite (GetID_n_avail Hfits k s) by lia. cbn [fst snd].
  destruct (n - k)%nat as [|m] eqn:Hm; [done|].
  by rewrite (GetID_n_exhausted Hfits (S m)) by (cbn; lia).
Qed.

(** X13.  What [OS_TLS_GetID] returns can be told apart by the value store: an
    ID returned with [OS_ERR_NONE] is at once below the counter, so that
    neither [OS_TLS_GetValue] nor [OS_TLS_SetValue] reports
    [OS_ERR_TLS_ID_INVALID] for it; the value returned on exhaustion is the
    table size, which, with argument checking compiled in, both reject
    with [OS_ERR_TLS_ID_INVALID]. *)
Theorem GetID_result_in_value_store (s s' : OS) (id : OS_TLS_ID) (err : OS_ERR) :
  OS_CFG_TLS_TBL_SIZE < 2 ^ CPU_DATA_BITS →
  OS_TLS_NextAvailID s ≤ OS_CFG_TLS_TBL_SIZE →
  OS_TLS_GetID s = (s', id, err) →
  (err = OS_ERR_NONE
   ∧ id < OS_TLS_NextAvailID s'
   ∧ ∀ p_tcb value,
       (∀ r, OS_TLS_GetValue s' p_tcb id = Some r → r.2 ≠ OS_ERR_TLS_ID_INVALID)
       ∧ (∀ r, OS_TLS_SetValue s' p_tcb id value = Some r →
               r.2 ≠ OS_ERR_TLS_ID_INVALID))
  ∨ (err = OS_ERR_TLS_NO_MORE_AVAIL
     ∧ id = OS_CFG_TLS_TBL_SIZE
     ∧ s' = s
     ∧ (OS_CFG_ARG_CHK_EN = true →
        ∀ p_tcb value,
          OS_TLS_GetValue s' p_tcb id = Some (0, OS_ERR_TLS_ID_INVALID)
          ∧ OS_TLS_SetValue s' p_tcb id value = Some (s', OS_ERR_TLS_ID_INVALID))).
Proof.
  intros Hfits Hcnt HGet.
  destruct (N.lt_ge_cases (OS_TLS_NextAvailID s) OS_CFG_TLS_TBL_SIZE) as [Hlt|Hge].
  - rewrite (GetID_avail Hfits s Hlt) in HGet. injection HGet as <- <- <-.
    left. split; [done|]. split; [cbn; lia|].
    intros p_tcb value. unfold OS_TLS_GetValue, OS_TLS_SetValue.
    cbn [OS_TLS_NextAvailID set_NextAvailID].
    destruct (N.leb_spec (OS_TLS_NextAvailID s + 1) (OS_TLS_NextAvailID s)); [lia|].
    rewrite andb_false_r.
    destruct (resolve_tcb _ p_tcb) as [p|]; [|split; by intros r [= <-]].
    destruct (TCBs _ !! p) as [tcb|]; [|done]. cbn.
    destruct (TLS_enabled tcb); [|split; by intros r [= <-]].
    destruct (TLS_Tbl tcb !! N.to_nat (OS_TLS_NextAvailID s)); [|done]. cbn.
    split; by intros r [= <-].
  - rewrite (GetID_exhausted Hfits s Hge) in HGet. injection HGet as <- <- <-.
    right. split_and!; try done.
    intros Hchk p_tcb value. unfold OS_TLS_GetValue, OS_TLS_SetValue. rewrite Hchk.
    destruct (N.leb_spec (OS_TLS_NextAvailID s) OS_CFG_TLS_TBL_SIZE); [done|lia].
Qed.

(** ** Further properties of the lock pool *)

Lemma walk_chain (fuel : nat) (tbl : list OS_TLS_LOCK) :
  ∀ (h : option nat) (l : list nat), walk fuel tbl h = Some l → chain tbl h l.
Proof.
  induction fuel as [|fuel IH]; intros h l Hw.
  - destruct h; [done|]. by injection Hw as <-.
  - destruct h as [p|]; [|by injection Hw as <-]. cbn in Hw.
    destruct (tbl !! p) as [[nxt]|] eqn:Hlk; [|done]. cbn in Hw.
    destruct (walk fuel tbl nxt) as [l'|] eqn:Hw'; [|done]. cbn in Hw.
    injection Hw as <-. split; [done|]. exists nxt. split; [done|by apply IH].
Qed.

Lemma perm_seq_length (l1 l2 : list nat) (n : nat) :
  l1 ++ l2 ≡ₚ seq 0 n → (length l1 + length l2 = n)%nat.
Proof. intros Hperm. rewrite <- length_app, Hperm. apply length_seq. Qed.

(** In a state that satisfies the invariant, the list that [free_list]
    computes is the chain of the invariant. *)
Lemma pool_inv_free_list (s : OS) (held free : list nat) :
  pool_inv s held →
  free_list s = Some free →
  length (OS_TLS_LockPoolTbl s) = OS_TLS_LOCK_MAX
  ∧ chain (OS_TLS_LockPoolTbl s) (OS_TLS_LockPoolListPtr s) free
  ∧ free ++ held ≡ₚ seq 0 OS_TLS_LOCK_MAX.
Proof.
  intros (Hlen & free0 & Hc0 & Hperm0) Hfree.
  assert (free_list s = Some free0) as Hfree0.
  { unfold free_list. apply chain_walk; [done|].
    pose proof (perm_seq_length _ _ _ Hperm0). lia. }
  rewrite Hfree in Hfree0. injection Hfree0 as ->. done.
Qed.

(** As many successful Creates as a prefix of the free list has entries
    check out that prefix, front entry first, and leave the rest of the
    list; the table is not written. *)
Lemma Create_run_chain (l1 : list nat) : ∀ (s : OS) (held l2 : list nat),
  chain (OS_TLS_LockPoolTbl s) (OS_TLS_LockPoolListPtr s) (l1 ++ l2) →
  ∃ s', client_run (replicate (length l1) (Create true OS_ERR_NONE)) s held
          = Done s' (reverse l1 ++ held)
      ∧ OS_TLS_LockPoolTbl s' = OS_TLS_LockPoolTbl s
      ∧ chain (OS_TLS_LockPoolTbl s') (OS_TLS_LockPoolListPtr s') l2.
Proof.
  induction l1 as [|p l1 IH]; intros s held l2 Hc.
  - exists s. by cbn.
  - destruct Hc as (Hhd & nxt & Hlk & Hc).
    cbn [length replicate client_run].
    rewrite (LockCreate_pop s OS_ERR_NONE p nxt Hhd Hlk). rewrite decide_True by done.
    destruct (IH (call (OSMutexCreate p) (set_LockPoolListPtr nxt s)) (p :: held) l2 Hc)
      as (s' & Hrun & Htbl & Hc').
    exists s'. rewrite Hrun. split_and!; [|done|done].
    by rewrite reverse_cons, <- app_assoc.
Qed.

Lemma Init_chain (s0 : OS) :
  OS_CFG_TLS_TBL_SIZE < 2 ^ CPU_DATA_BITS →
  0 < OS_CFG_TLS_TBL_SIZE →
  (0 < OS_TLS_LOCK_MAX)%nat →
  (OS_TLS_LOCK_MAX ≤ 2 ^ 16)%nat →
  length (OS_TLS_LockPoolTbl s0) = OS_TLS_LOCK_MAX →
  ∃ s1, OS_TLS_Init s0 = Some (s1, OS_ERR_NONE)
      ∧ length (OS_TLS_LockPoolTbl s1) = OS_TLS_LOCK_MAX
      ∧ chain (OS_TLS_LockPoolTbl s1) (OS_TLS_LockPoolListPtr s1)
              (seq 0 OS_TLS_LOCK_MAX).
Proof.
  intros Hfits Hpos Hlpos Hlfits Hlen.
  destruct (Init_result Hfits Hpos Hlpos Hlfits s0) as (t & HInit & Hlent & Hlink & Hlast).
  eexists. split; [exact HInit|]. cbn. split; [lia|].
  replace (seq 0 OS_TLS_LOCK_MAX) with (seq 0 (S (OS_TLS_LOCK_MAX - 1)))
    by (f_equal; lia).
  apply (chain_seq t OS_TLS_LOCK_MAX).
  - intros i Hi. apply Hlink; lia.
  - apply Hlast. lia.
  - lia.
Qed.

(** X14.  After [OS_TLS_Init], [OS_TLS_LOCK_MAX] Creates whose mutexes are
    created all succeed and return the entries of the table in index
    order; the pool is then empty, and every further Create stores a null
    handle and changes nothing, whatever [OSMutexCreate] would report. *)
Theorem Create_until_exhausted (s0 : OS) :
  OS_CFG_TLS_TBL_SIZE < 2 ^ CPU_DATA_BITS →
  0 < OS_CFG_TLS_TBL_SIZE →
  (0 < OS_TLS_LOCK_MAX)%nat →
  (OS_TLS_LOCK_MAX ≤ 2 ^ 16)%nat →
  length (OS_TLS_LockPoolTbl s0) = OS_TLS_LOCK_MAX →
  ∃ s1 s,
    OS_TLS_Init s0 = Some (s1, OS_ERR_NONE)
    ∧ client_run (replicate OS_TLS_LOCK_MAX (Create true OS_ERR_NONE)) s1 []
        = Done s (reverse (seq 0 OS_TLS_LOCK_MAX))
    ∧ free_list s = Some []
    ∧ ∀ err, OS_TLS_LockCreate s true err = Some (s, Some None).
Proof.
  intros Hfits Hpos Hlpos Hlfits Hlen.
  destruct (Init_chain s0 Hfits Hpos Hlpos Hlfits Hlen) as (s1 & HInit & Hlen1 & Hc1).
  rewrite <- (app_nil_r (seq 0 OS_TLS_LOCK_MAX)) in Hc1.
  destruct (Create_run_chain (seq 0 OS_TLS_LOCK_MAX) s1 [] [] Hc1)
    as (s & Hrun & Htbl & Hc).
  rewrite length_seq, app_nil_r in Hrun. cbn in Hc.
  exists s1, s. split; [exact HInit|]. split; [exact Hrun|]. split.
  - unfold free_list. rewrite Hc. by destruct (length (OS_TLS_LockPoolTbl s)).
  - intros err. by apply LockCreate_empty.
Qed.

(** X15.  A successful Create followed by the Delete of the handle it returned
    leaves the pool, table and list head, exactly as it was: the state
    differs only by the two kernel calls. *)
Theorem LockCreate_then_LockDel (s : OS) (p : nat) (err : OS_ERR) :
  ListPtr_valid s →
  OS_TLS_LockPoolListPtr s = Some p →
  ∃ s1,
    OS_TLS_LockCreate s true OS_ERR_NONE = Some (s1, Some (Some p))
    ∧ OS_TLS_LockDel s1 (Some p) err =
        Some (call (OSMutexDel p) (call (OSMutexCreate p) s)).
Proof.
  intros Hvalid Hhd. unfold ListPtr_valid in Hvalid. rewrite Hhd in Hvalid.
  destruct (lookup_lt_is_Some_2 _ _ Hvalid) as [[nxt] Hlk].
  rewrite (LockCreate_pop s OS_ERR_NONE p nxt Hhd Hlk). rewrite decide_True by done.
  eexists. split; [reflexivity|].
  rewrite LockDel_push by done. f_equal.
  destruct s; cbn in Hhd, Hlk |- *.
  unfold set_LockPoolListPtr, set_NextPtr, call, set_LockPoolTbl; cbn.
  rewrite list_insert_id by done. by subst.
Qed.

(** Deletes of checked-out entries stack them on the free list. *)
Lemma Delete_run_chain (ds : list (nat * OS_ERR)) :
  ∀ (s : OS) (held free : list nat),
  length (OS_TLS_LockPoolTbl s) = OS_TLS_LOCK_MAX →
  chain (OS_TLS_LockPoolTbl s) (OS_TLS_LockPoolListPtr s) free →
  free ++ held ≡ₚ seq 0 OS_TLS_LOCK_MAX →
  NoDup ds.*1 →
  (∀ p, p ∈ ds.*1 → p ∈ held) →
  ∃ s' held',
    client_run ((λ d, Delete (Some d.1) d.2) <$> ds) s held = Done s' held'
    ∧ length (OS_TLS_LockPoolTbl s') = OS_TLS_LOCK_MAX
    ∧ chain (OS_TLS_LockPoolTbl s') (OS_TLS_LockPoolListPtr s')
            (reverse ds.*1 ++ free)
    ∧ (reverse ds.*1 ++ free) ++ held' ≡ₚ seq 0 OS_TLS_LOCK_MAX
    ∧ held ≡ₚ ds.*1 ++ held'.
Proof.
  induction ds as [|[p err] ds IH]; intros s held free Hlen Hc Hperm Hnd Hsub.
  - exists s, held. by cbn.
  - cbn [fmap list_fmap fst snd client_run] in *.
    apply NoDup_cons in Hnd as [Hp Hnd].
    assert (p ∈ held) as Hin by (apply Hsub, list_elem_of_here).
    destruct (take_out_elem p held Hin) as [held1 Hout]. rewrite Hout.
    pose proof (take_out_perm _ _ _ Hout) as Hheld.
    destruct (pool_inv_held s held p) as [Hlt Hfresh]; [by split; eauto|done|].
    rewrite LockDel_push by done.
    destruct (IH (set_LockPoolListPtr (Some p)
                    (set_NextPtr p (OS_TLS_LockPoolListPtr s) (call (OSMutexDel p) s)))
                 held1 (p :: free)) as (s' & held' & Hrun & Hlen' & Hc' & Hperm' & Hheld').
    + cbn. by rewrite length_insert.
    + cbn. split; [done|]. exists (OS_TLS_LockPoolListPtr s). split.
      * by apply list_lookup_insert_eq.
      * apply chain_insert; [by apply Hfresh|done].
    + cbn. rewrite <- Hperm, Hheld. by rewrite <- Permutation_middle.
    + done.
    + intros q Hq. assert (q ∈ held) as Hqh by (apply Hsub; by right).
      rewrite Hheld in Hqh. apply elem_of_cons in Hqh as [->|Hqh]; [done|done].
    + exists s', held'. rewrite Hrun.
      rewrite reverse_cons, <- !app_assoc. cbn.
      split_and!; [done|done|done| |].
      * by rewrite <- !app_assoc in Hperm'.
      * by rewrite Hheld, Hheld'.
Qed.

(** X16.  The free list is a stack: when checked-out entries are deleted one
    after the other, whatever [OSMutexDel] reports, they are put in front
    of the free list, last deleted first, and as many successful Creates
    then hand the same entries out again, last deleted first. *)
Theorem free_list_is_LIFO (s : OS) (held free : list nat)
    (ds : list (nat * OS_ERR)) :
  pool_inv s held →
  free_list s = Some free →
  NoDup ds.*1 →
  (∀ p, p ∈ ds.*1 → p ∈ held) →
  ∃ s' held' s'',
    client_run ((λ d, Delete (Some d.1) d.2) <$> ds) s held = Done s' held'
    ∧ free_list s' = Some (reverse ds.*1 ++ free)
    ∧ held ≡ₚ ds.*1 ++ held'
    ∧ client_run (replicate (length ds) (Create true OS_ERR_NONE)) s' held'
        = Done s'' (ds.*1 ++ held')
    ∧ free_list s'' = Some free.
Proof.
  intros Hinv Hfree Hnd Hsub.
  destruct (pool_inv_free_list s held free Hinv Hfree) as (Hlen & Hc & Hperm).
  destruct (Delete_run_chain ds s held free Hlen Hc Hperm Hnd Hsub)
    as (s' & held' & Hrun & Hlen' & Hc' & Hperm' & Hheld').
  destruct (Create_run_chain (reverse ds.*1) s' held' free Hc')
    as (s'' & Hrun' & Htbl'' & Hc'').
  rewrite length_reverse, length_fmap, reverse_involutive in Hrun'.
  exists s', held', s''. split_and!; [done| |done|done|].
  - unfold free_list. apply chain_walk; [done|].
    pose proof (perm_seq_length _ _ _ Hperm'). lia.
  - unfold free_list. apply chain_walk; [done|].
    pose proof (perm_seq_length _ _ _ Hperm') as Hn.
    rewrite length_app in Hn. rewrite Htbl''. lia.
Qed.

(** ** Properties of the lock hooks of the runtime *)

Lemma walk_self_loop (tbl : list OS_TLS_LOCK) (p : nat) :
  tbl !! p = Some (mkLock (Some p)) →
  ∀ fuel, walk fuel tbl (Some p) = None.
Proof.
  intros Hlk. induction fuel as [|fuel IH]; [done|].
  cbn. rewrite Hlk. cbn. by rewrite IH.
Qed.

(** The init hooks on a cell that exists, when the free list has a head
    [p] and its mutex is created. *)
Lemma Mtxinit_pop (s : OS) (m : gmap nat (option nat)) (c : nat)
    (h : option nat) (p : nat) (nxt : option nat) :
  m !! c = Some h →
  OS_TLS_LockPoolListPtr s = Some p →
  OS_TLS_LockPoolTbl s !! p = Some (mkLock nxt) →
  __iar_system_Mtxinit s m (Some c) OS_ERR_NONE
    = Some (call (OSMutexCreate p) (set_LockPoolListPtr nxt s), <[c := Some p]> m)
  ∧ __iar_file_Mtxinit s m (Some c) OS_ERR_NONE
    = Some (call (OSMutexCreate p) (set_LockPoolListPtr nxt s), <[c := Some p]> m).
Proof.
  intros Hc Hhd Hlk. unfold __iar_system_Mtxinit, __iar_file_Mtxinit.
  rewrite !bool_decide_eq_true_2 by done.
  rewrite (LockCreate_pop s OS_ERR_NONE p nxt Hhd Hlk). rewrite decide_True by done.
  cbn. rewrite Hc. done.
Qed.

(** The delete hooks on a cell that holds an entry of the pool. *)
Lemma Mtxdst_push (s : OS) (m : gmap nat (option nat)) (c p : nat) (err : OS_ERR) :
  m !! c = Some (Some p) →
  (p < length (OS_TLS_LockPoolTbl s))%nat →
  __iar_system_Mtxdst s m (Some c) err
    = Some (set_LockPoolListPtr (Some p)
              (set_NextPtr p (OS_TLS_LockPoolListPtr s) (call (OSMutexDel p) s)), m)
  ∧ __iar_file_Mtxdst s m (Some c) err
    = Some (set_LockPoolListPtr (Some p)
              (set_NextPtr p (OS_TLS_LockPoolListPtr s) (call (OSMutexDel p) s)), m).
Proof.
  intros Hc Hp. unfold __iar_system_Mtxdst, __iar_file_Mtxdst.
  cbn [mbind option_bind]. rewrite Hc. cbn [mbind option_bind].
  by rewrite LockDel_push by done.
Qed.

(** X17.  The system lock and a file lock initialised one after the other, from
    a pool that satisfies the invariant and has two free entries, are two
    different entries: the two cells never share a handle. *)
Theorem Mtxinit_distinct_locks (s : OS) (held free : list nat) (p1 p2 : nat)
    (m : gmap nat (option nat)) (c1 c2 : nat) :
  pool_inv s held →
  free_list s = Some (p1 :: p2 :: free) →
  is_Some (m !! c1) →
  is_Some (m !! c2) →
  c1 ≠ c2 →
  ∃ s1 m1 s2 m2,
    __iar_system_Mtxinit s m (Some c1) OS_ERR_NONE = Some (s1, m1)
    ∧ __iar_file_Mtxinit s1 m1 (Some c2) OS_ERR_NONE = Some (s2, m2)
    ∧ m2 !! c1 = Some (Some p1)
    ∧ m2 !! c2 = Some (Some p2)
    ∧ p1 ≠ p2
    ∧ free_list s2 = Some free.
Proof.
  intros Hinv Hfree [h1 Hc1] [h2 Hc2] Hne.
  destruct (pool_inv_free_list s held _ Hinv Hfree) as (Hlen & Hc & Hperm).
  destruct Hc as (Hhd & nxt & Hlk1 & -> & nxt2 & Hlk2 & Hc).
  destruct (Mtxinit_pop s m c1 h1 p1 (Some p2) Hc1 Hhd Hlk1) as [Hsys _].
  destruct (Mtxinit_pop (call (OSMutexCreate p1) (set_LockPoolListPtr (Some p2) s))
              (<[c1 := Some p1]> m) c2 h2 p2 nxt2) as [_ Hfile];
    [by rewrite lookup_insert_ne|done|done|].
  eexists _, _, _, _. split; [exact Hsys|]. split; [exact Hfile|].
  split_and!.
  - rewrite lookup_insert_ne by done. apply lookup_insert_eq.
  - apply lookup_insert_eq.
  - assert (NoDup ((p1 :: p2 :: free) ++ held)) as Hnd
      by (rewrite Hperm; apply NoDup_seq).
    cbn in Hnd. apply NoDup_cons in Hnd as [Hnotin _].
    intros ->. apply Hnotin, list_elem_of_here.
  - unfold free_list. cbn. apply chain_walk; [done|].
    pose proof (perm_seq_length _ _ _ Hperm) as Hn. cbn in Hn. lia.
Qed.

(** X18.  When the pool is empty the runtime goes on without locking: the init
    hook stores a null handle in the cell and changes nothing else,
    whatever [OSMutexCreate] would report, and the lock, unlock and delete
    hooks on that cell then do nothing, running kernel or not. *)
Theorem Mtx_on_empty_pool (s : OS) (m : gmap nat (option nat)) (c : nat)
    (err err' : OS_ERR) :
  OS_TLS_LockPoolListPtr s = None →
  is_Some (m !! c) →
  __iar_system_Mtxinit s m (Some c) err = Some (s, <[c := None]> m)
  ∧ __iar_file_Mtxinit s m (Some c) err = Some (s, <[c := None]> m)
  ∧ __iar_system_Mtxlock s (<[c := None]> m) (Some c) = Some (s, <[c := None]> m)
  ∧ __iar_system_Mtxunlock s (<[c := None]> m) (Some c) = Some (s, <[c := None]> m)
  ∧ __iar_system_Mtxdst s (<[c := None]> m) (Some c) err' = Some (s, <[c := None]> m)
  ∧ __iar_file_Mtxlock s (<[c := None]> m) (Some c) = Some (s, <[c := None]> m)
  ∧ __iar_file_Mtxunlock s (<[c := None]> m) (Some c) = Some (s, <[c := None]> m)
  ∧ __iar_file_Mtxdst s (<[c := None]> m) (Some c) err' = Some (s, <[c := None]> m).
Proof.
  intros Hnil [h Hc].
  unfold __iar_system_Mtxinit, __iar_file_Mtxinit, __iar_system_Mtxlock,
    __iar_system_Mtxunlock, __iar_system_Mtxdst, __iar_file_Mtxlock,
    __iar_file_Mtxunlock, __iar_file_Mtxdst.
  rewrite !bool_decide_eq_true_2 by done.
  rewrite !LockCreate_empty by done. cbn. rewrite Hc. cbn.
  rewrite !lookup_insert_eq. cbn. done.
Qed.

(** X19.  A lock of the runtime from initialisation to deletion: the init hook
    stores the head [p] of the free list in the cell; while the kernel runs
    the lock and unlock hooks pend on and post the mutex of [p]; the delete
    hook puts the pool back exactly as it was before the initialisation,
    and leaves the handle in the cell. *)
Theorem Mtxinit_then_Mtxdst (s : OS) (m : gmap nat (option nat)) (c p : nat)
    (err : OS_ERR) :
  ListPtr_valid s →
  OS_TLS_LockPoolListPtr s = Some p →
  is_Some (m !! c) →
  ∃ s1,
    __iar_system_Mtxinit s m (Some c) OS_ERR_NONE = Some (s1, <[c := Some p]> m)
    ∧ (OSRunning s = OS_STATE_OS_RUNNING →
       __iar_system_Mtxlock s1 (<[c := Some p]> m) (Some c)
         = Some (call (OSMutexPend p) s1, <[c := Some p]> m)
       ∧ __iar_system_Mtxunlock s1 (<[c := Some p]> m) (Some c)
           = Some (call (OSMutexPost p) s1, <[c := Some p]> m))
    ∧ __iar_system_Mtxdst s1 (<[c := Some p]> m) (Some c) err
        = Some (call (OSMutexDel p) (call (OSMutexCreate p) s), <[c := Some p]> m).
Proof.
  intros Hvalid Hhd [h Hc]. unfold ListPtr_valid in Hvalid. rewrite Hhd in Hvalid.
  destruct (lookup_lt_is_Some_2 _ _ Hvalid) as [[nxt] Hlk].
  unfold __iar_system_Mtxinit, __iar_system_Mtxlock, __iar_system_Mtxunlock,
    __iar_system_Mtxdst.
  rewrite bool_decide_eq_true_2 by done.
  rewrite (LockCreate_pop s OS_ERR_NONE p nxt Hhd Hlk). rewrite decide_True by done.
  cbn. rewrite Hc. cbn. eexists. split; [reflexivity|].
  rewrite !lookup_insert_eq. cbn. split.
  - intros Hrun. unfold OS_TLS_LockAcquire, OS_TLS_LockRelease. cbn.
    by rewrite bool_decide_eq_false_2 by (by intros []).
  - rewrite Hlk. cbn.
    do 2 f_equal. destruct s; cbn in Hhd, Hlk |- *.
    unfold set_LockPoolListPtr, set_NextPtr, call, set_LockPoolTbl; cbn.
    rewrite list_insert_id by done. by subst.
Qed.

(** X20.  The delete hook does not clear the cell, and nothing detects a second
    deletion: deleting the same lock twice links its entry to itself, so
    that the free list is a cycle and the next two Creates both return that
    entry. *)
Theorem Mtxdst_twice (s : OS) (m : gmap nat (option nat)) (c p : nat)
    (err1 err2 : OS_ERR) :
  m !! c = Some (Some p) →
  (p < length (OS_TLS_LockPoolTbl s))%nat →
  ∃ s1 s2 s3 s4,
    __iar_system_Mtxdst s m (Some c) err1 = Some (s1, m)
    ∧ __iar_system_Mtxdst s1 m (Some c) err2 = Some (s2, m)
    ∧ free_list s2 = None
    ∧ OS_TLS_LockCreate s2 true OS_ERR_NONE = Some (s3, Some (Some p))
    ∧ OS_TLS_LockCreate s3 true OS_ERR_NONE = Some (s4, Some (Some p)).
Proof.
  intros Hc Hp.
  destruct (Mtxdst_push s m c p err1 Hc Hp) as [HD1 _].
  set (s1 := set_LockPoolListPtr (Some p)
               (set_NextPtr p (OS_TLS_LockPoolListPtr s) (call (OSMutexDel p) s))) in HD1.
  destruct (Mtxdst_push s1 m c p err2 Hc) as [HD2 _];
    [subst s1; cbn; by rewrite length_insert|].
  set (s2 := set_LockPoolListPtr (Some p)
               (set_NextPtr p (OS_TLS_LockPoolListPtr s1) (call (OSMutexDel p) s1))) in HD2.
  assert (OS_TLS_LockPoolTbl s2 !! p = Some (mkLock (Some p))) as Hlk.
  { subst s2 s1. cbn. apply list_lookup_insert_eq. by rewrite length_insert. }
  exists s1, s2. eexists _, _. split; [exact HD1|]. split; [exact HD2|]. split_and!.
  - unfold free_list. by apply walk_self_loop.
  - rewrite (LockCreate_pop s2 OS_ERR_NONE p (Some p) eq_refl Hlk).
    by rewrite decide_True.
  - rewrite (LockCreate_pop (call (OSMutexCreate p) (set_LockPoolListPtr (Some p) s2))
               OS_ERR_NONE p (Some p) eq_refl Hlk).
    by rewrite decide_True.
Qed.

(** ** A further property of the initialisation *)

(** The links that [OS_TLS_Init] writes determine the table. *)
Lemma linked_table_unique (n : nat) (t t' : list OS_TLS_LOCK) :
  (0 < n)%nat →
  length t = n → length t' = n →
  (∀ i, (i + 1 < n)%nat → t !! i = Some (mkLock (Some (i + 1)%nat))) →
  (∀ i, (i + 1 < n)%nat → t' !! i = Some (mkLock (Some (i + 1)%nat))) →
  t !! (n - 1)%nat = Some (mkLock None) →
  t' !! (n - 1)%nat = Some (mkLock None) →
  t' = t.
Proof.
  intros Hn Hlen Hlen' Hlink Hlink' Hlast Hlast'. apply list_eq. intros i.
  destruct (decide (i + 1 < n)%nat) as [Hi|Hi].
  - by rewrite Hlink, Hlink'.
  - destruct (decide (i = n - 1)%nat) as [->|Hne].
    + by rewrite Hlast, Hlast'.
    + rewrite !(proj2 (lookup_ge_None _ _)); [done|lia|lia].
Qed.

(** X21.  [OS_TLS_Init] is a reset: what it leaves in the counter, the
    library slot and the pool does not depend on what they held before, so
    that running it again on the state it has left changes nothing. *)
Theorem Init_twice (s0 : OS) :
  OS_CFG_TLS_TBL_SIZE < 2 ^ CPU_DATA_BITS →
  0 < OS_CFG_TLS_TBL_SIZE →
  (0 < OS_TLS_LOCK_MAX)%nat →
  (OS_TLS_LOCK_MAX ≤ 2 ^ 16)%nat →
  length (OS_TLS_LockPoolTbl s0) = OS_TLS_LOCK_MAX →
  ∃ s1, OS_TLS_Init s0 = Some (s1, OS_ERR_NONE)
      ∧ OS_TLS_Init s1 = Some (s1, OS_ERR_NONE)
      ∧ ∀ s0', length (OS_TLS_LockPoolTbl s0') = OS_TLS_LOCK_MAX →
               ∃ s1', OS_TLS_Init s0' = Some (s1', OS_ERR_NONE)
                    ∧ OS_TLS_NextAvailID s1' = OS_TLS_NextAvailID s1
                    ∧ OS_TLS_LibID s1' = OS_TLS_LibID s1
                    ∧ pool s1' = pool s1.
Proof.
  intros Hfits Hpos Hlpos Hlfits Hlen.
  destruct (Init_result Hfits Hpos Hlpos Hlfits s0)
    as (t & HInit & Hlent & Hlink & Hlast).
  eexists. split; [exact HInit|]. split.
  - destruct (Init_result Hfits Hpos Hlpos Hlfits
                (mkOS 1 0 t (Some 0%nat) (OSRunning s0) (OSTCBCurPtr s0)
                      (OSTCBHighRdyPtr s0) (TCBs s0) (calls s0)))
      as (t' & HInit' & Hlent' & Hlink' & Hlast').
    cbn in HInit', Hlent', Hlink', Hlast'. rewrite HInit'.
    rewrite (linked_table_unique OS_TLS_LOCK_MAX t t'); [done|done|lia|lia| | | |].
    + intros i Hi. apply Hlink; lia.
    + intros i Hi. apply Hlink'; lia.
    + apply Hlast. lia.
    + apply Hlast'. lia.
  - intros s0' Hlen0'.
    destruct (Init_result Hfits Hpos Hlpos Hlfits s0')
      as (t' & HInit' & Hlent' & Hlink' & Hlast').
    eexists. split; [exact HInit'|]. cbn. split_and!; [done|done|].
    unfold pool. cbn.
    rewrite (linked_table_unique OS_TLS_LOCK_MAX t t'); [done|done|lia|lia| | | |].
    + intros i Hi. apply Hlink; lia.
    + intros i Hi. apply Hlink'; lia.
    + apply Hlast. lia.
    + apply Hlast'. lia.
Qed.

End os_tls.


(** ** The configuration of section 8 of the specification

    Four TLS registers, two locks, 32-bit [CPU_DATA] and [uintptr_t],
    argument checking on, [OS_OPT_TASK_NO_TLS] = 0x0100 and
    [OS_OPT_NONE] = 0. *)

Example Init_boot : OS_TLS_Init 4 2 32 (boot 2) = Some (after_init, OS_ERR_NONE).
Proof. reflexivity. Qed.

Example GetID_five :
  (GetID_n 4 32 5 (boot 2)).2 =
    [(0, OS_ERR_NONE); (1, OS_ERR_NONE); (2, OS_ERR_NONE); (3, OS_ERR_NONE);
     (4, OS_ERR_TLS_NO_MORE_AVAIL)].
Proof. reflexivity. Qed.

Example scenario_handles :
  ∃ s, client_run scenario after_init [] = Done s [0; 1]%nat
     ∧ free_list s = Some []
     ∧ snd <$> OS_TLS_LockCreate s true OS_ERR_NONE = Some (Some None).
Proof. eexists. split; [reflexivity|]. split; reflexivity. Qed.

(** Deleting an entry that is not checked out is outside the protocol of
    the pool: the entry is linked to itself and the free list becomes a
    cycle. *)
Example Delete_not_held :
  free_list <$> OS_TLS_LockDel after_init (Some 0%nat) OS_ERR_NONE = Some None.
Proof. reflexivity. Qed.

(** ** The theorems at concrete inputs

    Each lemma instantiates one theorem in the configuration above and
    discharges its hypotheses by evaluation. *)

Lemma pool_conservation_witness :
  length (OS_TLS_LockPoolTbl (boot 2)) = 2%nat
  ∧ OS_TLS_Init 4 2 32 (boot 2) = Some (after_init, OS_ERR_NONE)
  ∧ ∃ s, client_run scenario after_init [] = Done s [0; 1]%nat
       ∧ free_list s = Some []
       ∧ (∀ err, OS_TLS_LockCreate s true err = Some (s, Some None))
       ∧ ∀ p err, p ∈ [0; 1]%nat →
           ∃ s', OS_TLS_LockDel s (Some p) err = Some s'
               ∧ free_list s' = Some [p]
               ∧ (∃ s'', OS_TLS_LockCreate s' true OS_ERR_NONE
                           = Some (s'', Some (Some p))
                         ∧ free_list s'' = Some [])
               ∧ (∀ err', err' ≠ OS_ERR_NONE →
                    ∃ s'', OS_TLS_LockCreate s' true err' = Some (s'', Some None)
                         ∧ free_list s'' = Some [p]).
Proof.
  split; [reflexivity|]. split; [reflexivity|].
  destruct (pool_conservation 4 2 32) with (s0 := boot 2) (ops := scenario)
    as (s1 & HInit & _ & Hkeep);
    [reflexivity|lia|lia|apply Nat.leb_le; vm_compute; reflexivity|reflexivity|].
  assert (Some (s1, OS_ERR_NONE) = Some (after_init, OS_ERR_NONE)) as Heq
    by (rewrite <- HInit; reflexivity).
  injection Heq as ->.
  eexists. split; [reflexivity|].
  match goal with
  | |- free_list ?S = _ ∧ _ =>
      destruct (Hkeep S [0; 1]%nat) as (free & Hfree & _ & _ & Hempty & _ & _ & Hdel);
        [reflexivity|]
  end.
  vm_compute in Hfree. injection Hfree as <-.
  split; [reflexivity|]. split; [exact (Hempty eq_refl)|exact Hdel].
Defined.

Lemma GetID_issues_0_to_n_witness :
  OS_TLS_NextAvailID (boot 2) = 0
  ∧ N.of_nat 4 ≤ 4
  ∧ (GetID_n 4 32 4 (boot 2)).2 =
      [(0, OS_ERR_NONE); (1, OS_ERR_NONE); (2, OS_ERR_NONE); (3, OS_ERR_NONE)]
  ∧ OS_TLS_NextAvailID (GetID_n 4 32 4 (boot 2)).1 = 4.
Proof.
  assert (4 < 2 ^ 32) as Hfits by reflexivity.
  assert (N.of_nat 4 ≤ 4) as Hn by (cbn; lia).
  split; [reflexivity|]. split; [exact Hn|].
  destruct (GetID_issues_0_to_n 4 32 Hfits (boot 2) 4 eq_refl Hn) as (Hids & Hcount & _).
  split; [exact Hids|exact Hcount].
Defined.

Lemma LockCreate_failure_keeps_pool_witness :
  ListPtr_valid after_init
  ∧ OS_TLS_LockCreate after_init false (OS_ERR_OTHER 1) = Some (after_init, None)
  ∧ OS_TLS_LockCreate after_init true (OS_ERR_OTHER 1)
      = Some (call (OSMutexCreate 0) after_init, Some None)
  ∧ OS_TLS_LockCreate after_init true OS_ERR_NONE
      = Some (call (OSMutexCreate 0) (set_LockPoolListPtr (Some 1%nat) after_init),
              Some (Some 0%nat)).
Proof.
  assert (ListPtr_valid after_init) as Hvalid by (unfold ListPtr_valid; cbn; lia).
  split; [exact Hvalid|].
  destruct (LockCreate_failure_keeps_pool after_init (OS_ERR_OTHER 1) Hvalid)
    as (Hnull & s' & h & Hrun & _ & Hfail & _).
  split; [exact Hnull|]. split.
  - destruct (Hfail 0%nat eq_refl) as [-> ->]; [discriminate|exact Hrun].
  - destruct (LockCreate_failure_keeps_pool after_init OS_ERR_NONE Hvalid)
      as (_ & s'' & h' & Hrun' & _ & _ & _ & Hiff & Hpop).
    assert (h' = Some 0%nat) as -> by (by apply Hiff).
    destruct (Hpop 0%nat eq_refl) as (nxt & Hlk & ->).
    assert (nxt = Some 1%nat) as -> by (by injection Hlk as <-).
    exact Hrun'.
Defined.

Lemma unissued_id_is_invalid_witness :
  OS_TLS_NextAvailID after_init ≤ 1
  ∧ OS_TLS_GetValue true 256 0 after_init None 1 = Some (0, OS_ERR_TLS_ID_INVALID)
  ∧ OS_TLS_SetValue true 256 0 after_init None 1 7 =
      Some (after_init, OS_ERR_TLS_ID_INVALID).
Proof.
  assert (OS_TLS_NextAvailID after_init ≤ 1) as Hid by (cbn; lia).
  split; [exact Hid|].
  exact (unissued_id_is_invalid true 256 0 after_init None 1 7 eq_refl Hid).
Defined.

Lemma current_task_before_start_witness :
  OSTCBCurPtr after_init = None
  ∧ 0 < OS_TLS_NextAvailID after_init
  ∧ OS_TLS_GetValue true 256 0 after_init None 0 = Some (0, OS_ERR_OS_NOT_RUNNING)
  ∧ OS_TLS_SetValue true 256 0 after_init None 0 7 =
      Some (after_init, OS_ERR_OS_NOT_RUNNING).
Proof.
  assert (0 < OS_TLS_NextAvailID after_init) as Hid by (cbn; lia).
  split; [reflexivity|]. split; [exact Hid|].
  exact (current_task_before_start true 256 0 after_init 0 7 eq_refl (or_intror Hid)).
Defined.

Lemma Set_then_Get_witness :
  OS_TLS_NextAvailID running_task ≤ 4
  ∧ (∃ s', OS_TLS_SetValue true 256 0 running_task None 1 77 = Some (s', OS_ERR_NONE)
         ∧ OS_TLS_GetValue true 256 0 s' None 1 = Some (77, OS_ERR_NONE))
  ∧ OS_TLS_NextAvailID task_cleared ≤ 4
  ∧ ∃ s', OS_TLS_TaskCreate 256 0 task_cleared 1 4096 = Some s'
        ∧ OS_TLS_GetValue true 256 0 s' (Some 1%nat) 0 = Some (4096, OS_ERR_NONE).
Proof.
  assert (OS_TLS_NextAvailID running_task ≤ 4) as Hrun by (cbn; lia).
  assert (OS_TLS_NextAvailID task_cleared ≤ 4) as Hnew by (cbn; lia).
  split; [exact Hrun|]. split; [|split; [exact Hnew|]].
  - apply (proj1 (Set_then_Get 4 true 256 0 running_task Hrun)
             None 1%nat (mkTCB 0 [4096; 0; 0; 0]) 1 77);
      [reflexivity|reflexivity|reflexivity|reflexivity|cbn; lia].
  - apply (proj2 (Set_then_Get 4 true 256 0 task_cleared Hnew) 1%nat 0 4096 0);
      [reflexivity|reflexivity|cbn; lia|cbn; lia].
Defined.

Lemma Init_takes_slot_0_witness :
  ∃ s, OS_TLS_Init 4 2 32 (boot 2) = Some (s, OS_ERR_NONE)
     ∧ OS_TLS_LibID s = 0
     ∧ OS_TLS_NextAvailID s = 1
     ∧ (OS_TLS_GetID 4 32 s).1.2 = 1
     ∧ ((OS_TLS_GetID 4 32 s).2 = OS_ERR_NONE ↔ 1 < 4)
     ∧ ∀ n : nat,
         N.of_nat (length (filter (λ r, r.2 = OS_ERR_NONE) (GetID_n 4 32 n s).2))
           ≤ 4 - 1.
Proof.
  apply (Init_takes_slot_0 4 2 32);
    [reflexivity|lia|lia|apply Nat.leb_le; vm_compute; reflexivity].
Defined.

(** ** Inputs at which statements of the specification fail *)

(** C5 as the specification words it (for every [id]) fails when argument
    checking is compiled in: before the kernel runs, with [p_tcb] null and an
    [id] that has not been issued, the ID check comes first and the error is
    [OS_ERR_TLS_ID_INVALID], not [OS_ERR_OS_NOT_RUNNING]. *)
Lemma current_task_before_start_unissued_id :
  OSTCBCurPtr after_init = None
  ∧ OSRunning after_init = OS_STATE_OS_STOPPED
  ∧ OS_TLS_GetValue true 256 0 after_init None 1 = Some (0, OS_ERR_TLS_ID_INVALID)
  ∧ OS_TLS_GetValue true 256 0 after_init None 1 ≠ Some (0, OS_ERR_OS_NOT_RUNNING)
  ∧ OS_TLS_SetValue true 256 0 after_init None 1 7 =
      Some (after_init, OS_ERR_TLS_ID_INVALID)
  ∧ OS_TLS_SetValue true 256 0 after_init None 1 7 ≠
      Some (after_init, OS_ERR_OS_NOT_RUNNING).
Proof. split_and!; done. Qed.

(** C6 as the specification words it (zero in any valid register of a new
    task) fails at the library slot: after [OS_TLS_Init], register 0 is
    valid, and a task created with TLS whose table has been cleared reads
    there, once its creation hook has run and before any [OS_TLS_SetValue],
    as the segment pointer that [OS_TLS_TaskCreate] has stored (here 4096),
    with [OS_ERR_NONE]. *)
Lemma new_task_library_slot_not_zero :
  OS_TLS_Init 4 2 32 (boot 2) = Some (after_init, OS_ERR_NONE)
  ∧ task_cleared = set_TCBs (<[1%nat := cleared_tcb 4 0]> (TCBs after_init)) after_init
  ∧ TLS_enabled 256 0 (cleared_tcb 4 0) = true
  ∧ 0 < OS_TLS_NextAvailID task_cleared
  ∧ ∃ s',
      OS_TLS_TaskCreate 256 0 task_cleared 1 4096 = Some s'
      ∧ OS_TLS_GetValue true 256 0 s' (Some 1%nat) 0 = Some (4096, OS_ERR_NONE)
      ∧ OS_TLS_GetValue true 256 0 s' (Some 1%nat) 0 ≠ Some (0, OS_ERR_NONE).
Proof.
  split; [reflexivity|]. split; [reflexivity|]. split; [reflexivity|].
  split; [cbn; lia|].
  eexists. split; [reflexivity|]. split; done.
Qed.

(** C1 as the specification words it (any sequence of Create and Delete;
    a Create after a Delete succeeds) fails in two ways.  A Delete of a
    handle that is not checked out is not detected: after [OS_TLS_Init],
    Create, Delete of the handle and a second Delete of the same handle
    leave entry 0 linked to itself, so that the free list is a cycle that
    entry 1 is not on, though nothing is checked out, and the next two
    Creates both hand out entry 0.  And after the Delete of a checked-out
    handle, a Create whose [OSMutexCreate] reports an error stores a null
    handle. *)
Lemma second_Delete_breaks_conservation :
  OS_TLS_Init 4 2 32 (boot 2) = Some (after_init, OS_ERR_NONE)
  ∧ ∃ s2 s3 s4 s5 s6,
      OS_TLS_LockCreate after_init true OS_ERR_NONE = Some (s2, Some (Some 0%nat))
      ∧ OS_TLS_LockDel s2 (Some 0%nat) OS_ERR_NONE = Some s3
      ∧ free_list s3 = Some [0; 1]%nat
      ∧ OS_TLS_LockDel s3 (Some 0%nat) OS_ERR_NONE = Some s4
      ∧ OS_TLS_LockPoolListPtr s4 = Some 0%nat
      ∧ OS_TLS_LockPoolTbl s4 !! 0%nat = Some (mkLock (Some 0%nat))
      ∧ free_list s4 = None
      ∧ ¬ (∃ free, free_list s4 = Some free ∧ free ++ [] ≡ₚ seq 0 2)
      ∧ OS_TLS_LockCreate s4 true OS_ERR_NONE = Some (s5, Some (Some 0%nat))
      ∧ OS_TLS_LockCreate s5 true OS_ERR_NONE = Some (s6, Some (Some 0%nat))
      ∧ OS_TLS_LockCreate s3 true (OS_ERR_OTHER 1)
          = Some (call (OSMutexCreate 0) s3, Some None)
      ∧ ∀ s' p, OS_TLS_LockCreate s3 true (OS_ERR_OTHER 1) ≠ Some (s', Some (Some p)).
Proof.
  split; [reflexivity|].
  eexists _, _, _, _, _. split; [reflexivity|]. split; [reflexivity|].
  split; [reflexivity|]. split; [reflexivity|]. split; [reflexivity|].
  split; [reflexivity|]. split; [reflexivity|].
  split; [by intros (free & Hfree & _)|].
  split; [reflexivity|]. split; [reflexivity|]. split; [reflexivity|].
  intros s' p H. vm_compute in H. discriminate H.
Qed.

(** ** The further properties at concrete inputs *)

Lemma SetValue_frame_witness :
  OS_TLS_SetValue true 256 0 running_task None 1 77
    = Some (running_task_set, OS_ERR_NONE)
  ∧ running_task_set = set_TCBs (TCBs running_task_set) running_task
  ∧ OS_TLS_GetValue true 256 0 running_task_set (Some 1%nat) 0
      = OS_TLS_GetValue true 256 0 running_task (Some 1%nat) 0.
Proof.
  assert (OS_TLS_SetValue true 256 0 running_task None 1 77
            = Some (running_task_set, OS_ERR_NONE)) as HSet by reflexivity.
  split; [exact HSet|].
  destruct (SetValue_frame true 256 0 running_task running_task_set None 1 77
              OS_ERR_NONE HSet) as [Hsame Hother].
  split; [exact Hsame|]. apply Hother. right. discriminate.
Defined.

Lemma SetValue_last_write_wins_witness :
  OS_TLS_SetValue true 256 0 running_task None 1 77
    = Some (running_task_set, OS_ERR_NONE)
  ∧ OS_TLS_SetValue true 256 0 running_task_set None 1 5
      = OS_TLS_SetValue true 256 0 running_task None 1 5.
Proof.
  assert (OS_TLS_SetValue true 256 0 running_task None 1 77
            = Some (running_task_set, OS_ERR_NONE)) as HSet by reflexivity.
  split; [exact HSet|].
  exact (SetValue_last_write_wins true 256 0 running_task running_task_set None 1
           77 5 HSet).
Defined.

Lemma SetValue_of_GetValue_witness :
  OS_TLS_GetValue true 256 0 running_task_set None 1 = Some (77, OS_ERR_NONE)
  ∧ OS_TLS_SetValue true 256 0 running_task_set None 1 77
      = Some (running_task_set, OS_ERR_NONE).
Proof.
  assert (OS_TLS_GetValue true 256 0 running_task_set None 1
            = Some (77, OS_ERR_NONE)) as HGet by reflexivity.
  split; [exact HGet|].
  exact (SetValue_of_GetValue true 256 0 running_task_set None 1 77 HGet).
Defined.

Lemma TaskCreate_then_TaskDel_witness :
  ∃ s1 s2,
    OS_TLS_TaskCreate 256 0 task_cleared 1 4096 = Some s1
    ∧ OS_TLS_TaskDel 256 0 s1 1 = Some s2
    ∧ calls s2 =
        [iar_dlib_perthread_deallocate 4096; iar_dlib_perthread_destroy;
         iar_dlib_perthread_initialize 4096; iar_dlib_perthread_allocate]
    ∧ TCBs s2 = TCBs task_cleared.
Proof.
  destruct (TaskCreate_then_TaskDel 256 0 task_cleared 1 (mkTCB 0 [0; 0; 0; 0]) 4096)
    as (s1 & s2 & HC & HD & Hcalls & HT & _);
    [reflexivity|reflexivity|cbn; lia|].
  exists s1, s2. split; [exact HC|]. split; [exact HD|]. split; [exact Hcalls|].
  rewrite HT. reflexivity.
Defined.

Lemma task_without_TLS_witness :
  OS_TLS_TaskCreate 256 0 no_tls_task 1 4096 = Some no_tls_task
  ∧ OS_TLS_TaskDel 256 0 no_tls_task 1 = Some no_tls_task
  ∧ OS_TLS_GetValue true 256 0 no_tls_task (Some 1%nat) 0
      = Some (0, OS_ERR_TLS_NOT_EN)
  ∧ OS_TLS_SetValue true 256 0 no_tls_task (Some 1%nat) 0 7
      = Some (no_tls_task, OS_ERR_TLS_NOT_EN).
Proof.
  destruct (task_without_TLS true 256 0 no_tls_task 1 (mkTCB 256 [0; 0; 0; 0])
              4096 0 7) as (HC & HD & Hval); [reflexivity|reflexivity|].
  split; [exact HC|]. split; [exact HD|]. apply Hval. reflexivity.
Defined.

Lemma perthread_access_after_hooks_witness :
  ∃ s1 s2,
    OS_TLS_TaskCreate 256 0 running_task 1 12288 = Some s1
    ∧ __iar_dlib_perthread_access 32 8192 (λ x, x - 8192) s1 8200 = Some 12296
    ∧ OS_TLS_TaskDel 256 0 s1 1 = Some s2
    ∧ __iar_dlib_perthread_access 32 8192 (λ x, x - 8192) s2 8200 = Some 8.
Proof.
  apply (perthread_access_after_hooks 256 0 32 8192 (λ x, x - 8192) running_task 1
           (mkTCB 0 [4096; 0; 0; 0]) 12288 8200);
    [reflexivity|reflexivity|reflexivity|reflexivity|cbn; lia].
Defined.

Lemma tls_inv_kept_witness :
  tls_inv 4 running_task
  ∧ tls_run 4 true 256 0 32
      [CallGetID; CallSetValue None 1 77; CallTaskSw; CallLockCreate true OS_ERR_NONE]
      running_task
    = Some (mkOS 3 0 [mkLock (Some 1%nat); mkLock None] (Some 1%nat)
              OS_STATE_OS_RUNNING (Some 1%nat) (Some 1%nat)
              {[ 1%nat := mkTCB 0 [4096; 77; 0; 0] ]} [OSMutexCreate 0])
  ∧ tls_inv 4 (mkOS 3 0 [mkLock (Some 1%nat); mkLock None] (Some 1%nat)
                 OS_STATE_OS_RUNNING (Some 1%nat) (Some 1%nat)
                 {[ 1%nat := mkTCB 0 [4096; 77; 0; 0] ]} [OSMutexCreate 0]).
Proof.
  assert (tls_inv 4 running_task) as Hinv.
  { unfold tls_inv. cbn. split_and!; [lia|lia|].
    intros p tcb Hp. apply lookup_singleton_Some in Hp as [_ <-]. reflexivity. }
  split; [exact Hinv|]. split; [reflexivity|].
  apply (tls_inv_kept 4 true 256 0 32
           [CallGetID; CallSetValue None 1 77; CallTaskSw;
            CallLockCreate true OS_ERR_NONE] running_task);
    [reflexivity|exact Hinv|reflexivity].
Defined.

Lemma library_slot_stays_reserved_witness :
  ∃ s1, OS_TLS_Init 4 2 32 (boot 2) = Some (s1, OS_ERR_NONE)
      ∧ tls_inv 4 s1
      ∧ ∀ s', tls_run 4 true 256 0 32 [CallGetID; CallGetID; CallGetID; CallGetID] s1
                = Some s' →
              tls_inv 4 s' ∧ OS_TLS_LibID s' = 0 ∧ (OS_TLS_GetID 4 32 s').1.2 ≠ 0.
Proof.
  apply (library_slot_stays_reserved 4 2 true 256 0 32 (boot 2));
    [reflexivity|lia|lia|apply Nat.leb_le; vm_compute; reflexivity|].
  intros p tcb Hp. cbn in Hp. rewrite lookup_empty in Hp. discriminate.
Defined.

Lemma checked_access_is_defined_witness :
  is_Some (OS_TLS_GetValue true 256 0 running_task None 1000)
  ∧ is_Some (OS_TLS_SetValue true 256 0 running_task None 1000 7)
  ∧ ∀ q p_tls, is_Some (TCBs running_task !! q) →
               is_Some (OS_TLS_TaskCreate 256 0 running_task q p_tls)
               ∧ is_Some (OS_TLS_TaskDel 256 0 running_task q).
Proof.
  apply (checked_access_is_defined 4 true 256 0 running_task None 1000 7).
  - unfold tls_inv. cbn. split_and!; [lia|lia|].
    intros p tcb Hp. apply lookup_singleton_Some in Hp as [_ <-]. reflexivity.
  - reflexivity.
  - intros p Hp. cbn in Hp. injection Hp as <-. eexists. reflexivity.
Defined.

Lemma unchecked_access_out_of_table_witness :
  OS_TLS_GetValue false 256 0 running_task None 4 = None
  ∧ OS_TLS_SetValue false 256 0 running_task None 4 7 = None.
Proof.
  apply (unchecked_access_out_of_table 4 false 256 0 running_task None 1
           (mkTCB 0 [4096; 0; 0; 0]) 4 7);
    [reflexivity|reflexivity|reflexivity|reflexivity|reflexivity|cbn; lia].
Defined.

Lemma GetID_n_successes_then_failures_witness :
  (GetID_n 4 32 5 after_init).2 =
    [(1, OS_ERR_NONE); (2, OS_ERR_NONE); (3, OS_ERR_NONE);
     (4, OS_ERR_TLS_NO_MORE_AVAIL); (4, OS_ERR_TLS_NO_MORE_AVAIL)]
  ∧ OS_TLS_NextAvailID (GetID_n 4 32 5 after_init).1 = 4.
Proof.
  apply (GetID_n_successes_then_failures 4 32 after_init 5); [reflexivity|cbn; lia].
Defined.

Lemma GetID_result_in_value_store_witness :
  OS_TLS_GetID 4 32 after_init = (set_NextAvailID 2 after_init, 1, OS_ERR_NONE)
  ∧ (∀ r, OS_TLS_GetValue true 256 0 (set_NextAvailID 2 after_init) None 1 = Some r →
          r.2 ≠ OS_ERR_TLS_ID_INVALID).
Proof.
  split; [reflexivity|].
  destruct (GetID_result_in_value_store 4 true 256 0 32 after_init
              (set_NextAvailID 2 after_init) 1 OS_ERR_NONE)
    as [(_ & _ & Hok)|(Hno & _)]; [reflexivity|cbn; lia|reflexivity| |discriminate].
  exact (proj1 (Hok None 0)).
Defined.

Lemma Create_until_exhausted_witness :
  ∃ s1 s,
    OS_TLS_Init 4 2 32 (boot 2) = Some (s1, OS_ERR_NONE)
    ∧ client_run (replicate 2 (Create true OS_ERR_NONE)) s1 [] = Done s [1; 0]%nat
    ∧ free_list s = Some []
    ∧ ∀ err, OS_TLS_LockCreate s true err = Some (s, Some None).
Proof.
  apply (Create_until_exhausted 4 2 32 (boot 2));
    [reflexivity|lia|lia|apply Nat.leb_le; vm_compute; reflexivity|reflexivity].
Defined.

Lemma LockCreate_then_LockDel_witness :
  ∃ s1,
    OS_TLS_LockCreate after_init true OS_ERR_NONE = Some (s1, Some (Some 0%nat))
    ∧ OS_TLS_LockDel s1 (Some 0%nat) (OS_ERR_OTHER 1)
        = Some (call (OSMutexDel 0) (call (OSMutexCreate 0) after_init)).
Proof.
  apply (LockCreate_then_LockDel after_init 0 (OS_ERR_OTHER 1));
    [unfold ListPtr_valid; cbn; lia|reflexivity].
Defined.

Lemma free_list_is_LIFO_witness :
  ∃ s' held' s'',
    client_run [Delete (Some 0%nat) OS_ERR_NONE; Delete (Some 1%nat) (OS_ERR_OTHER 1)]
               both_held [1; 0]%nat
      = Done s' held'
    ∧ free_list s' = Some [1; 0]%nat
    ∧ [1; 0]%nat ≡ₚ [0; 1]%nat ++ held'
    ∧ client_run (replicate 2 (Create true OS_ERR_NONE)) s' held'
        = Done s'' ([0; 1]%nat ++ held')
    ∧ free_list s'' = Some [].
Proof.
  apply (free_list_is_LIFO 2 both_held [1; 0]%nat []
           [(0%nat, OS_ERR_NONE); (1%nat, OS_ERR_OTHER 1)]).
  - split; [reflexivity|]. exists []. split; [reflexivity|]. apply Permutation_swap.
  - reflexivity.
  - cbn. apply NoDup_cons. split; [|apply NoDup_singleton].
    intros Hin. apply list_elem_of_singleton in Hin. discriminate.
  - cbn. intros p Hp. apply elem_of_cons in Hp as [->|Hp].
    + apply list_elem_of_further, list_elem_of_here.
    + apply list_elem_of_singleton in Hp as ->. apply list_elem_of_here.
Defined.

Lemma Mtxinit_distinct_locks_witness :
  ∃ s1 m1 s2 m2,
    __iar_system_Mtxinit after_init cells (Some 10%nat) OS_ERR_NONE = Some (s1, m1)
    ∧ __iar_file_Mtxinit s1 m1 (Some 11%nat) OS_ERR_NONE = Some (s2, m2)
    ∧ m2 !! 10%nat = Some (Some 0%nat)
    ∧ m2 !! 11%nat = Some (Some 1%nat)
    ∧ 0%nat ≠ 1%nat
    ∧ free_list s2 = Some [].
Proof.
  apply (Mtxinit_distinct_locks 2 after_init [] [] 0 1 cells 10 11).
  - split; [reflexivity|]. exists [0; 1]%nat. split; [|reflexivity].
    cbn. split; [reflexivity|]. exists (Some 1%nat). split; [reflexivity|].
    split; [reflexivity|]. exists None. split; reflexivity.
  - reflexivity.
  - eexists. reflexivity.
  - eexists. reflexivity.
  - discriminate.
Defined.

Lemma Mtx_on_empty_pool_witness :
  __iar_system_Mtxinit both_held cells (Some 10%nat) OS_ERR_NONE
    = Some (both_held, <[10%nat := None]> cells)
  ∧ __iar_system_Mtxlock both_held (<[10%nat := None]> cells) (Some 10%nat)
      = Some (both_held, <[10%nat := None]> cells).
Proof.
  destruct (Mtx_on_empty_pool both_held cells 10 OS_ERR_NONE OS_ERR_NONE)
    as (Hinit & _ & Hlock & _); [reflexivity|eexists; reflexivity|].
  split; [exact Hinit|exact Hlock].
Defined.

Lemma Mtxinit_then_Mtxdst_witness :
  ∃ s1,
    __iar_system_Mtxinit after_init cells (Some 10%nat) OS_ERR_NONE
      = Some (s1, <[10%nat := Some 0%nat]> cells)
    ∧ __iar_system_Mtxdst s1 (<[10%nat := Some 0%nat]> cells) (Some 10%nat)
        (OS_ERR_OTHER 1)
      = Some (call (OSMutexDel 0) (call (OSMutexCreate 0) after_init),
              <[10%nat := Some 0%nat]> cells).
Proof.
  destruct (Mtxinit_then_Mtxdst after_init cells 10 0 (OS_ERR_OTHER 1))
    as (s1 & Hinit & _ & Hdst);
    [unfold ListPtr_valid; cbn; lia|reflexivity|eexists; reflexivity|].
  exists s1. split; [exact Hinit|exact Hdst].
Defined.

Lemma Mtxdst_twice_witness :
  ∃ s1 s2 s3 s4,
    __iar_system_Mtxdst both_held (<[10%nat := Some 0%nat]> cells) (Some 10%nat)
      OS_ERR_NONE = Some (s1, <[10%nat := Some 0%nat]> cells)
    ∧ __iar_system_Mtxdst s1 (<[10%nat := Some 0%nat]> cells) (Some 10%nat)
        OS_ERR_NONE = Some (s2, <[10%nat := Some 0%nat]> cells)
    ∧ free_list s2 = None
    ∧ OS_TLS_LockCreate s2 true OS_ERR_NONE = Some (s3, Some (Some 0%nat))
    ∧ OS_TLS_LockCreate s3 true OS_ERR_NONE = Some (s4, Some (Some 0%nat)).
Proof.
  apply (Mtxdst_twice both_held (<[10%nat := Some 0%nat]> cells) 10 0
           OS_ERR_NONE OS_ERR_NONE); [reflexivity|cbn; lia].
Defined.

Lemma Init_twice_witness :
  ∃ s1, OS_TLS_Init 4 2 32 both_held = Some (s1, OS_ERR_NONE)
      ∧ OS_TLS_Init 4 2 32 s1 = Some (s1, OS_ERR_NONE)
      ∧ ∀ s0', length (OS_TLS_LockPoolTbl s0') = 2%nat →
               ∃ s1', OS_TLS_Init 4 2 32 s0' = Some (s1', OS_ERR_NONE)
                    ∧ OS_TLS_NextAvailID s1' = OS_TLS_NextAvailID s1
                    ∧ OS_TLS_LibID s1' = OS_TLS_LibID s1
                    ∧ pool s1' = pool s1.
Proof.
  apply (Init_twice 4 2 32 both_held);
    [reflexivity|lia|lia|apply Nat.leb_le; vm_compute; reflexivity|reflexivity].
Defined.
